(** * Raja-Mantri-Chor-Sipahi: the room / round state machine of [app.py]

    A shallow embedding of the Flask handlers of [src/app.py] and the
    properties of the room, round and score ledger they implement.

    Modelling conventions.
    - A Python [dict] is an insertion-ordered association list ([PyDict]):
      [d[k] = v] overwrites in place when [k] is present and appends
      otherwise, [d.get(k)] is [PyDict.get], [d[k]] raises [KeyError] on a
      missing key, [d.items()] is the list itself.
    - Python integers are [Z].
    - The global [rooms] registry is passed explicitly; a handler returns
      its response together with the registry after the call.  A room is a
      mutable object stored in the registry: the handler writes the mutated
      room back under its id.
    - An uncaught Python exception is a response of its own ([Raised]); the
      registry returned with it carries whatever the handler had already
      mutated when the exception was raised.
    - [generate_id()] and [random.shuffle(roles)] are sources of
      nondeterminism: the identifier drawn and the shuffled role list are
      explicit arguments of the handler that consumes them.
    - The JSON body and the URL parameters of a request are its fields,
      present and strings: [data["playerName"]], [data["mantriId"]] and
      [data["guessedId"]] are arguments of the handler. *)

From Stdlib Require Import List String ZArith Bool Lia Arith.
From Stdlib Require Import Permutation Sorted.
Import ListNotations.
Open Scope string_scope.
Open Scope list_scope.
Open Scope Z_scope.

(** ** Python dictionaries with string keys *)

Module PyDict.

Section Dict.
Context {V : Type}.

Definition t := list (string * V).

Definition empty : t := [].

(** [d.get(k)]; [d[k]] is the same lookup, with [None] read as [KeyError]. *)
Fixpoint get (k : string) (d : t) : option V :=
  match d with
  | [] => None
  | (k', v) :: rest => if String.eqb k k' then Some v else get k rest
  end.

(** [d[k] = v]: overwrite in place, or append a new key. *)
Fixpoint set (k : string) (v : V) (d : t) : t :=
  match d with
  | [] => [(k, v)]
  | (k', v') :: rest =>
      if String.eqb k k' then (k', v) :: rest else (k', v') :: set k v rest
  end.

(** [list(d.keys())] and [list(d.values())], in iteration order. *)
Definition keys (d : t) : list string := map fst d.
Definition values (d : t) : list V := map snd d.

End Dict.

Arguments t : clear implicits.

End PyDict.

Definition dict (V : Type) : Type := PyDict.t V.

(** ** Data model *)

(** The role names ["Raja"], ["Mantri"], ["Sipahi"], ["Chor"]. *)
Inductive Role : Type := Raja | Mantri | Sipahi | Chor.

Definition Role_eqb (a b : Role) : bool :=
  match a, b with
  | Raja, Raja | Mantri, Mantri | Sipahi, Sipahi | Chor, Chor => true
  | _, _ => false
  end.

Definition MAX_PLAYERS : nat := 4.

Definition DEFAULT_POINTS (r : Role) : Z :=
  match r with
  | Raja => 1000
  | Mantri => 800
  | Sipahi => 500
  | Chor => 0
  end.

(** [roles = ["Raja", "Mantri", "Chor", "Sipahi"]] before the shuffle. *)
Definition ROLES : list Role := [Raja; Mantri; Chor; Sipahi].

(** [{"id": ..., "name": ...}] *)
Record Player : Type := mkPlayer { id : string; name : string }.

(** [room["round"]] when it is not [None]. *)
Record Round : Type := mkRound {
  roles : dict Role;
  points : dict Z;
  completed : bool;
  guess : option bool
}.

(** A value of the [rooms] dictionary. *)
Record Room : Type := mkRoom {
  players : list Player;
  round : option Round;
  scores : dict Z
}.

Definition Registry : Type := dict Room.

Definition ids (ps : list Player) : list string := map id ps.

(** ** Responses *)

Inductive Exn : Type := KeyError | IndexError.

(** What a handler hands back to Flask: a JSON body with status 200, a
    [{"error": msg}] body with an error status, or an uncaught exception. *)
Inductive Response (A : Type) : Type :=
| Ok (body : A)
| HttpError (msg : string) (status : Z)
| Raised (e : Exn).

Arguments Ok {A} body.
Arguments HttpError {A} msg status.
Arguments Raised {A} e.

(** The failure kinds of the specification, as the responses of the code. *)
Definition RoomNotFound {A} : Response A := HttpError "Room not found" 404.
Definition RoomFull {A} : Response A := HttpError "Room full" 400.
Definition NoActiveRound {A} : Response A := HttpError "No active round" 400.
Definition NotMantri {A} : Response A := HttpError "Only Mantri can guess" 403.
Definition NoRound {A} : Response A := HttpError "No round" 400.

Definition failed {A} (r : Response A) : bool :=
  match r with
  | Ok _ => false
  | _ => true
  end.

(** ** Helpers *)

(** The loop of [assign_roles] over [zip(room["players"], roles)]. *)
Fixpoint assign_loop (zipped : list (Player * Role))
    (role_map : dict Role) (pts : dict Z) : dict Role * dict Z :=
  match zipped with
  | [] => (role_map, pts)
  | (player, role) :: rest =>
      assign_loop rest
        (PyDict.set (id player) role role_map)
        (PyDict.set (id player) (DEFAULT_POINTS role) pts)
  end.

(** [assign_roles(room)]; [shuffled] is [roles] after [random.shuffle]. *)
Definition assign_roles (shuffled : list Role) (room : Room) : Room :=
  let '(role_map, pts) :=
    assign_loop (combine (players room) shuffled) PyDict.empty PyDict.empty in
  {| players := players room;
     round := Some {| roles := role_map; points := pts;
                      completed := false; guess := None |};
     scores := scores room |}.

(** ** Handlers that mutate *)

(** The room literal of [create_room], lines 53-60. *)
Definition new_room (playerName player_id : string) : Room :=
  {| players := [mkPlayer player_id playerName];
     round := None;
     scores := PyDict.set player_id 0 PyDict.empty |}.

(** [create_room]; [room_id] and [player_id] are the two identifiers drawn. *)
Definition create_room (rooms : Registry) (playerName room_id player_id : string)
  : Response (string * string) * Registry :=
  (Ok (room_id, player_id),
   PyDict.set room_id (new_room playerName player_id) rooms).

(** Lines 73-83 of [join_room], on the room found in the registry. *)
Definition join (room : Room) (playerName player_id : string)
    (shuffled : list Role) : Response string * Room :=
  if (MAX_PLAYERS <=? List.length (players room))%nat then (RoomFull, room)
  else
    let room1 :=
      {| players := players room ++ [mkPlayer player_id playerName];
         round := round room;
         scores := PyDict.set player_id 0 (scores room) |} in
    let room2 :=
      if (List.length (players room1) =? MAX_PLAYERS)%nat
      then assign_roles shuffled room1 else room1 in
    (Ok player_id, room2).

Definition join_room (rooms : Registry) (roomId playerName player_id : string)
    (shuffled : list Role) : Response string * Registry :=
  match PyDict.get roomId rooms with
  | None => (RoomNotFound, rooms)
  | Some room =>
      let '(resp, room') := join room playerName player_id shuffled in
      (resp, PyDict.set roomId room' rooms)
  end.

(** [[pid for pid, r in roles.items() if r == "Chor"]] *)
Definition chor_ids (rls : dict Role) : list string :=
  map fst (filter (fun pr => Role_eqb (snd pr) Chor) rls).

(** Lines 125-128: the penalty on the round's points.  The dictionary
    returned with an exception is the one mutated so far. *)
Definition transfer (rls : dict Role) (mantri_id : string) (pts : dict Z)
  : option Exn * dict Z :=
  match chor_ids rls with
  | [] => (Some IndexError, pts)
  | chor_id :: _ =>
      match PyDict.get mantri_id pts with
      | None => (Some KeyError, pts)
      | Some stolen =>
          let pts1 := PyDict.set mantri_id 0 pts in
          match PyDict.get chor_id pts1 with
          | None => (Some KeyError, pts1)
          | Some c => (None, PyDict.set chor_id (c + stolen) pts1)
          end
      end
  end.

(** Lines 131-132: [for pid, pts in points.items(): scores[pid] += pts]. *)
Fixpoint update_scores (items : list (string * Z)) (sc : dict Z)
  : option Exn * dict Z :=
  match items with
  | [] => (None, sc)
  | (pid, pts) :: rest =>
      match PyDict.get pid sc with
      | None => (Some KeyError, sc)
      | Some s => update_scores rest (PyDict.set pid (s + pts) sc)
      end
  end.

Definition option_Role_eqb (a b : option Role) : bool :=
  match a, b with
  | Some x, Some y => Role_eqb x y
  | None, None => true
  | _, _ => false
  end.

(** Lines 112-137 of [guess_chor], on the room found in the registry. *)
Definition guess_in (room : Room) (mantri_id guessed_id : string)
  : Response bool * Room :=
  match round room with
  | None => (NoActiveRound, room)
  | Some rnd =>
      let rls := roles rnd in
      if negb (option_Role_eqb (PyDict.get mantri_id rls) (Some Mantri))
      then (NotMantri, room)
      else
        match PyDict.get guessed_id rls with
        | None => (Raised KeyError, room)
        | Some r =>
            let correct := Role_eqb r Chor in
            let '(e1, pts1) :=
              if negb correct then transfer rls mantri_id (points rnd)
              else (None, points rnd) in
            let rnd1 := {| roles := rls; points := pts1;
                           completed := completed rnd; guess := guess rnd |} in
            match e1 with
            | Some e =>
                (Raised e, {| players := players room; round := Some rnd1;
                              scores := scores room |})
            | None =>
                let '(e2, sc2) := update_scores pts1 (scores room) in
                match e2 with
                | Some e =>
                    (Raised e, {| players := players room; round := Some rnd1;
                                  scores := sc2 |})
                | None =>
                    (Ok correct,
                     {| players := players room;
                        round := Some {| roles := rls; points := pts1;
                                         completed := true;
                                         guess := Some correct |};
                        scores := sc2 |})
                end
            end
        end
  end.

Definition guess_chor (rooms : Registry) (room_id mantri_id guessed_id : string)
  : Response bool * Registry :=
  match PyDict.get room_id rooms with
  | None => (NoActiveRound, rooms)
  | Some room =>
      let '(resp, room') := guess_in room mantri_id guessed_id in
      (resp, PyDict.set room_id room' rooms)
  end.

(** ** Read accessors *)

Definition list_players (rooms : Registry) (room_id : string)
  : Response (list Player) :=
  match PyDict.get room_id rooms with
  | None => RoomNotFound
  | Some room => Ok (players room)
  end.

Definition my_role (rooms : Registry) (room_id player_id : string)
  : Response (option Role) :=
  match PyDict.get room_id rooms with
  | None => Ok None
  | Some room =>
      match round room with
      | None => Ok None
      | Some rnd => Ok (PyDict.get player_id (roles rnd))
      end
  end.

(** An entry of [result]: [{"name", "role", "totalScore"}]. *)
Record ResultEntry : Type := mkResultEntry {
  res_name : string;
  res_role : option Role;
  totalScore : Z
}.

(** The loop of [result]; [None] is the [KeyError] of [room["scores"][pid]]. *)
Fixpoint result_loop (ps : list Player) (rnd : Round) (sc : dict Z)
  : option (list ResultEntry) :=
  match ps with
  | [] => Some []
  | p :: rest =>
      match PyDict.get (id p) sc with
      | None => None
      | Some s =>
          match result_loop rest rnd sc with
          | None => None
          | Some l =>
              Some ({| res_name := name p;
                       res_role := PyDict.get (id p) (roles rnd);
                       totalScore := s |} :: l)
          end
      end
  end.

Definition result (rooms : Registry) (room_id : string)
  : Response (list ResultEntry) :=
  match PyDict.get room_id rooms with
  | None => NoRound
  | Some room =>
      match round room with
      | None => NoRound
      | Some rnd =>
          match result_loop (players room) rnd (scores room) with
          | None => Raised KeyError
          | Some l => Ok l
          end
      end
  end.

(** An entry of [leaderboard]: [{"name", "score"}]. *)
Record BoardEntry : Type := mkBoardEntry { board_name : string; score : Z }.

(** The loop of [leaderboard]; [None] is the [KeyError] of [room["scores"][p["id"]]]. *)
Fixpoint board_loop (ps : list Player) (sc : dict Z) : option (list BoardEntry) :=
  match ps with
  | [] => Some []
  | p :: rest =>
      match PyDict.get (id p) sc with
      | None => None
      | Some s =>
          match board_loop rest sc with
          | None => None
          | Some l => Some ({| board_name := name p; score := s |} :: l)
          end
      end
  end.

(** [list.sort(key=...)] is a stable sort: insertion sort is the reference
    stable sort, an element staying in front of the later ones of equal key. *)
Fixpoint insert_by {A : Type} (key : A -> Z) (x : A) (l : list A) : list A :=
  match l with
  | [] => [x]
  | y :: rest =>
      if key x <=? key y then x :: y :: rest else y :: insert_by key x rest
  end.

Fixpoint sort_by {A : Type} (key : A -> Z) (l : list A) : list A :=
  match l with
  | [] => []
  | x :: rest => insert_by key x (sort_by key rest)
  end.

(** [list.sort(key=..., reverse=True)]: the list is reversed, sorted
    (stably, ascending) and reversed again. *)
Definition sort_reverse {A : Type} (key : A -> Z) (l : list A) : list A :=
  rev (sort_by key (rev l)).

Definition leaderboard (rooms : Registry) (room_id : string)
  : Response (list BoardEntry) :=
  match PyDict.get room_id rooms with
  | None => RoomNotFound
  | Some room =>
      match board_loop (players room) (scores room) with
      | None => Raised KeyError
      | Some board => Ok (sort_reverse score board)
      end
  end.

(** Orders and filters on the sort key. *)
Definition ascending {A : Type} (key : A -> Z) (a b : A) : Prop := key a <= key b.
Definition descending {A : Type} (key : A -> Z) (a b : A) : Prop := key a >= key b.
Definition keyed {A : Type} (key : A -> Z) (s : Z) (a : A) : bool := key a =? s.

(** ** The life of one room *)

(** The mutating calls a room can receive once it exists. *)
Inductive Op : Type :=
| OpJoin (playerName player_id : string) (shuffled : list Role)
| OpGuess (mantri_id guessed_id : string).

Definition step (room : Room) (op : Op) : Room :=
  match op with
  | OpJoin n p s => snd (join room n p s)
  | OpGuess m g => snd (guess_in room m g)
  end.

Definition run (room : Room) (ops : list Op) : Room := fold_left step ops room.

(** A step installs a round when the room had none before and has one after. *)
Definition installs (room : Room) (op : Op) : bool :=
  match round room, round (step room op) with
  | None, Some _ => true
  | _, _ => false
  end.

Fixpoint installs_count (room : Room) (ops : list Op) : nat :=
  match ops with
  | [] => 0
  | op :: rest =>
      ((if installs room op then 1 else 0) + installs_count (step room op) rest)%nat
  end.

(** 1 when the room has a round, 0 when it has none. *)
Definition has_round (room : Room) : nat :=
  match round room with
  | Some _ => 1
  | None => 0
  end.

(** The rooms the handlers can build, whatever identifiers and shuffles are drawn. *)
Inductive reachable : Room -> Prop :=
| reach_new n p : reachable (new_room n p)
| reach_step room op : reachable room -> reachable (step room op).

(** The registries the handlers can build from the empty one. *)
Inductive reachable_registry : Registry -> Prop :=
| registry_empty : reachable_registry PyDict.empty
| registry_create rooms n rid p :
    reachable_registry rooms ->
    reachable_registry (snd (create_room rooms n rid p))
| registry_join rooms rid n p s :
    reachable_registry rooms ->
    reachable_registry (snd (join_room rooms rid n p s))
| registry_guess rooms rid m g :
    reachable_registry rooms ->
    reachable_registry (snd (guess_chor rooms rid m g)).

(** ** Invariants *)

(** Sum of the values of a points dictionary. *)
Definition total (d : dict Z) : Z := fold_right Z.add 0 (PyDict.values d).

(** The key discipline every reachable room keeps. *)
Definition keys_ok (room : Room) : Prop :=
  incl (ids (players room)) (PyDict.keys (scores room)) /\
  match round room with
  | None => True
  | Some rnd =>
      PyDict.keys (points rnd) = PyDict.keys (roles rnd) /\
      incl (PyDict.keys (roles rnd)) (PyDict.keys (scores room))
  end.

(** The fill discipline: at most four players, a round exactly when full. *)
Definition fill_ok (room : Room) : Prop :=
  (List.length (players room) <= MAX_PLAYERS)%nat /\
  (round room = None <-> (List.length (players room) < MAX_PLAYERS)%nat).

(** A round dealt to the players of the room, each holding a role of its
    own and every role held: the role mapping is a bijection from the roster
    onto the four roles, and the points have the keys of the roles. *)
Record round_wf (room : Room) (rnd : Round) : Prop := mk_round_wf {
  wf_keys : PyDict.keys (roles rnd) = ids (players room);
  wf_distinct : NoDup (PyDict.keys (roles rnd));
  wf_injective : NoDup (PyDict.values (roles rnd));
  wf_onto : forall r : Role, In r (PyDict.values (roles rnd));
  wf_points : PyDict.keys (points rnd) = PyDict.keys (roles rnd)
}.

(** The points of a round nobody has guessed in yet: each player holds the
    endowment of the role dealt. *)
Definition initial_points (rnd : Round) : Prop :=
  points rnd = map (fun kr => (fst kr, DEFAULT_POINTS (snd kr))) (roles rnd).

(** The room a completed guess leaves behind. *)
Definition resolved (room : Room) (rnd : Round) (correct : bool)
    (pts' sc' : dict Z) : Room :=
  {| players := players room;
     round := Some {| roles := roles rnd; points := pts';
                      completed := true; guess := Some correct |};
     scores := sc' |}.

(** ** A sample session *)

Definition demo_room3 : Room :=
  run (new_room "Asha" "p1") [OpJoin "Bala" "p2" ROLES; OpJoin "Chitra" "p3" ROLES].

(** The fourth join deals p1 = Sipahi, p2 = Chor, p3 = Mantri, p4 = Raja. *)
Definition demo_shuffle : list Role := [Sipahi; Chor; Mantri; Raja].

Definition demo_room : Room := snd (join demo_room3 "Dev" "p4" demo_shuffle).

Definition demo_rooms : Registry :=
  let r0 := snd (create_room PyDict.empty "Asha" "r1" "p1") in
  let r1 := snd (join_room r0 "r1" "Bala" "p2" ROLES) in
  let r2 := snd (join_room r1 "r1" "Chitra" "p3" ROLES) in
  snd (join_room r2 "r1" "Dev" "p4" demo_shuffle).

(** The round that join deals in the sample session. *)
Definition demo_round : Round :=
  {| roles := [("p1", Sipahi); ("p2", Chor); ("p3", Mantri); ("p4", Raja)];
     points := [("p1", 500); ("p2", 0); ("p3", 800); ("p4", 1000)];
     completed := false;
     guess := None |}.

(** A registry with one full room whose scores tie two by two. *)
Definition tied_room : Room :=
  {| players := players demo_room;
     round := round demo_room;
     scores := [("p1", 5); ("p2", 7); ("p3", 5); ("p4", 7)] |}.

Definition tied_rooms : Registry := [("r2", tied_room)].

(** ** The ledger discipline *)

(** What every reachable room keeps about its dictionaries and its ledger:
    keys are distinct, round points are never negative, and the scores are
    all 0 until a guess is resolved, when [completed] and [guess] are set
    together. *)
Definition ledger_ok (room : Room) : Prop :=
  NoDup (PyDict.keys (scores room)) /\
  match round room with
  | None => Forall (fun s => s = 0) (PyDict.values (scores room))
  | Some rnd =>
      NoDup (PyDict.keys (roles rnd)) /\
      Forall (fun p => 0 <= p) (PyDict.values (points rnd)) /\
      if completed rnd
      then guess rnd <> None /\
           Forall (fun s => 0 <= s) (PyDict.values (scores room))
      else guess rnd = None /\
           Forall (fun s => s = 0) (PyDict.values (scores room))
  end.

(** The board entry that carries the name and the total of a result entry. *)
Definition board_of_result (e : ResultEntry) : BoardEntry :=
  {| board_name := res_name e; score := totalScore e |}.

(** The sample room after the Mantri p3 wrongly names p1. *)
Definition demo_room_missed : Room := snd (guess_in demo_room "p3" "p1").

(** A session in which the fourth identifier drawn repeats the third: the
    role dealt to p3 is overwritten and nobody holds Chor. *)
Definition clash_room : Room :=
  run (new_room "Asha" "p1")
    [OpJoin "Bala" "p2" ROLES; OpJoin "Chitra" "p3" ROLES; OpJoin "Dev" "p3" ROLES].

(** ** Facts about dictionaries *)

Section DictFacts.
Context {V : Type}.
Implicit Types (d : dict V) (k : string) (v : V).

Lemma get_set_same k v d : PyDict.get k (PyDict.set k v d) = Some v.
Proof.
  induction d as [|[k' v'] rest IH]; simpl.
  - now rewrite String.eqb_refl.
  - destruct (String.eqb k k') eqn:E; simpl; now rewrite E.
Qed.

Lemma get_set_other k k' v d : k' <> k -> PyDict.get k' (PyDict.set k v d) = PyDict.get k' d.
Proof.
  intros Hne. induction d as [|[k0 v0] rest IH]; simpl.
  - apply String.eqb_neq in Hne. now rewrite Hne.
  - destruct (String.eqb k k0) eqn:E; simpl.
    + apply String.eqb_eq in E. subst k0.
      apply String.eqb_neq in Hne. now rewrite Hne.
    + now rewrite IH.
Qed.

Lemma get_some_in k d v : PyDict.get k d = Some v -> In k (PyDict.keys d).
Proof.
  induction d as [|[k' v'] rest IH]; simpl; [discriminate|].
  destruct (String.eqb k k') eqn:E.
  - apply String.eqb_eq in E. auto.
  - auto.
Qed.

Lemma in_get_some k d : In k (PyDict.keys d) -> exists v, PyDict.get k d = Some v.
Proof.
  induction d as [|[k' v'] rest IH]; simpl; [tauto|].
  intros [->|Hin].
  - rewrite String.eqb_refl. eauto.
  - destruct (String.eqb k k'); eauto.
Qed.

Lemma get_none_notin k d : PyDict.get k d = None -> ~ In k (PyDict.keys d).
Proof.
  intros Hg Hin. apply in_get_some in Hin as [v Hv]. congruence.
Qed.

(** Assigning to a key that is present keeps the key list, order included. *)
Lemma keys_set_present k v d : In k (PyDict.keys d) -> PyDict.keys (PyDict.set k v d) = PyDict.keys d.
Proof.
  induction d as [|[k' v'] rest IH]; simpl; [tauto|].
  intros Hin. destruct (String.eqb k k') eqn:E; simpl; [reflexivity|].
  f_equal. apply IH. destruct Hin as [->|]; [|assumption].
  now rewrite String.eqb_refl in E.
Qed.

(** Assigning to a new key appends it. *)
Lemma keys_set_absent k v d : ~ In k (PyDict.keys d) -> PyDict.keys (PyDict.set k v d) = PyDict.keys d ++ [k].
Proof.
  induction d as [|[k' v'] rest IH]; simpl; [reflexivity|].
  intros Hnin. destruct (String.eqb k k') eqn:E; simpl.
  - apply String.eqb_eq in E. subst. tauto.
  - f_equal. apply IH. tauto.
Qed.

Lemma keys_set_incl k v d k' : In k' (PyDict.keys d) -> In k' (PyDict.keys (PyDict.set k v d)).
Proof.
  intros Hin. induction d as [|[k0 v0] rest IH]; simpl in *; [tauto|].
  destruct (String.eqb k k0); simpl; tauto.
Qed.

Lemma set_get_id k v d : PyDict.get k d = Some v -> PyDict.set k v d = d.
Proof.
  induction d as [|[k' v'] rest IH]; simpl; [discriminate|].
  destruct (String.eqb k k') eqn:E.
  - now intros [= ->].
  - intros H. now rewrite IH.
Qed.

(** With distinct keys, [set] on an absent key is [app]. *)
Lemma set_absent k v d : ~ In k (PyDict.keys d) -> PyDict.set k v d = d ++ [(k, v)].
Proof.
  induction d as [|[k' v'] rest IH]; simpl; [reflexivity|].
  intros Hnin. destruct (String.eqb k k') eqn:E.
  - apply String.eqb_eq in E. subst. tauto.
  - f_equal. apply IH. tauto.
Qed.

End DictFacts.

Lemma in_keys_pair {V : Type} (d : dict V) k v : In (k, v) d -> In k (PyDict.keys d).
Proof. intros H. apply (in_map fst) in H. exact H. Qed.

(** With distinct keys, membership of a pair is lookup. *)
Lemma get_of_in {V : Type} (d : dict V) k v :
  NoDup (PyDict.keys d) -> In (k, v) d -> PyDict.get k d = Some v.
Proof.
  induction d as [|[k' v'] rest IH]; simpl; [tauto|].
  intros Hnd [Heq|Hin].
  - injection Heq as -> ->. now rewrite String.eqb_refl.
  - inversion Hnd as [|? ? Hnotin Hnd']; subst.
    destruct (String.eqb k k') eqn:E.
    + apply String.eqb_eq in E. subst k'.
      exfalso. apply Hnotin. eapply in_keys_pair; eauto.
    + auto.
Qed.

Lemma in_of_get {V : Type} (d : dict V) k v : PyDict.get k d = Some v -> In (k, v) d.
Proof.
  induction d as [|[k' v'] rest IH]; simpl; [discriminate|].
  destruct (String.eqb k k') eqn:E.
  - apply String.eqb_eq in E. intros [= ->]. subst. auto.
  - auto.
Qed.

(** ** Facts about the points and the scores *)

Lemma total_set (d : dict Z) k old v :
  PyDict.get k d = Some old -> total (PyDict.set k v d) = total d - old + v.
Proof.
  unfold total. induction d as [|[k' v'] rest IH]; simpl; [discriminate|].
  destruct (String.eqb k k') eqn:E; simpl.
  - intros [= ->]. lia.
  - intros H. rewrite (IH H). lia.
Qed.

Lemma chor_ids_in rls c : In c (chor_ids rls) -> In (c, Chor) rls.
Proof.
  unfold chor_ids. rewrite in_map_iff. intros [[k r] [Hk Hin]]. simpl in Hk. subst k.
  apply filter_In in Hin as [Hin Hr]. simpl in Hr.
  destruct r; try discriminate. exact Hin.
Qed.

Lemma chor_ids_complete rls c : In (c, Chor) rls -> In c (chor_ids rls).
Proof.
  intros Hin. unfold chor_ids. apply in_map_iff. exists (c, Chor). split; [reflexivity|].
  apply filter_In. split; [assumption|reflexivity].
Qed.

(** The penalty never changes the key list of the points when the accuser has
    an entry, whether it completes or raises. *)
Lemma transfer_keys rls m pts :
  In m (PyDict.keys pts) ->
  PyDict.keys (snd (transfer rls m pts)) = PyDict.keys pts.
Proof.
  intros Hm. unfold transfer.
  destruct (chor_ids rls) as [|c l]; [reflexivity|].
  destruct (PyDict.get m pts) as [stolen|]; [|reflexivity].
  destruct (PyDict.get c (PyDict.set m 0 pts)) as [cv|] eqn:Hc; simpl.
  - rewrite keys_set_present; [now apply keys_set_present|].
    eapply get_some_in; eauto.
  - now apply keys_set_present.
Qed.

(** A completed penalty conserves the sum of the points. *)
Lemma transfer_total rls m pts pts' :
  transfer rls m pts = (None, pts') -> total pts' = total pts.
Proof.
  unfold transfer.
  destruct (chor_ids rls) as [|c l]; [discriminate|].
  destruct (PyDict.get m pts) as [stolen|] eqn:Hm; [|discriminate].
  destruct (PyDict.get c (PyDict.set m 0 pts)) as [cv|] eqn:Hc; [|discriminate].
  intros [= <-].
  rewrite (total_set _ _ _ _ Hc), (total_set _ _ _ _ Hm). lia.
Qed.

(** When points and roles have the same keys, the penalty can only raise
    before it writes: for want of a Chor. *)
Lemma transfer_raises rls m pts e pts' :
  PyDict.keys pts = PyDict.keys rls ->
  In m (PyDict.keys rls) ->
  transfer rls m pts = (Some e, pts') -> e = IndexError /\ pts' = pts.
Proof.
  intros Hk Hm. unfold transfer.
  destruct (chor_ids rls) as [|c l] eqn:Hc; [now intros [= <- <-]|].
  assert (Hcin : In c (PyDict.keys pts)).
  { rewrite Hk. apply in_keys_pair with (v := Chor). apply chor_ids_in.
    rewrite Hc. now left. }
  rewrite <- Hk in Hm. destruct (in_get_some _ _ Hm) as [stolen ->].
  assert (Hcin' : In c (PyDict.keys (PyDict.set m 0 pts))) by now apply keys_set_incl.
  destruct (in_get_some _ _ Hcin') as [cv ->]. discriminate.
Qed.

Lemma update_scores_keys items sc :
  PyDict.keys (snd (update_scores items sc)) = PyDict.keys sc.
Proof.
  revert sc. induction items as [|[pid p] rest IH]; intros sc; simpl; [reflexivity|].
  destruct (PyDict.get pid sc) as [s|] eqn:Hs; [|reflexivity].
  rewrite IH. apply keys_set_present. eapply get_some_in; eauto.
Qed.

(** The accumulation completes when every key of the points has a score. *)
Lemma update_scores_completes items sc :
  incl (PyDict.keys items) (PyDict.keys sc) -> fst (update_scores items sc) = None.
Proof.
  revert sc. induction items as [|[pid p] rest IH]; intros sc Hincl; simpl; [reflexivity|].
  assert (Hin : In pid (PyDict.keys sc)) by (apply Hincl; now left).
  destruct (in_get_some _ _ Hin) as [s Hs]. rewrite Hs.
  apply IH. intros k Hk. apply keys_set_incl. apply Hincl. now right.
Qed.

(** What a completed accumulation leaves in the scores: each key of the
    points gained its points, every other score is as before. *)
Lemma update_scores_get items sc sc' pid :
  NoDup (PyDict.keys items) ->
  update_scores items sc = (None, sc') ->
  PyDict.get pid sc' =
    match PyDict.get pid items with
    | Some p => option_map (fun s => s + p) (PyDict.get pid sc)
    | None => PyDict.get pid sc
    end.
Proof.
  revert sc. induction items as [|[k p] rest IH]; intros sc Hnd; simpl.
  - now intros [= <-].
  - inversion Hnd as [|? ? Hnotin Hnd']; subst.
    destruct (PyDict.get k sc) as [s|] eqn:Hs; [|discriminate].
    intros Hrun. rewrite (IH _ Hnd' Hrun).
    destruct (String.eqb pid k) eqn:E.
    + apply String.eqb_eq in E. subst pid.
      destruct (PyDict.get k rest) as [q|] eqn:Hq.
      * exfalso. apply Hnotin. eapply get_some_in; eauto.
      * rewrite get_set_same, Hs. reflexivity.
    + apply String.eqb_neq in E. rewrite (get_set_other _ _ _ _ E). reflexivity.
Qed.

(** ** Facts about the guess *)

Lemma Role_eqb_eq a b : Role_eqb a b = true <-> a = b.
Proof. destruct a, b; simpl; split; congruence. Qed.

Lemma is_mantri_iff (o : option Role) :
  option_Role_eqb o (Some Mantri) = true <-> o = Some Mantri.
Proof.
  destruct o as [r|]; simpl.
  - rewrite Role_eqb_eq. split; congruence.
  - split; discriminate.
Qed.

(** Every call of the guess on a room that keeps the key discipline either
    fails and leaves the room as it was, or runs to completion. *)
Lemma guess_in_cases room rnd m g resp room' :
  round room = Some rnd ->
  PyDict.keys (points rnd) = PyDict.keys (roles rnd) ->
  incl (PyDict.keys (roles rnd)) (PyDict.keys (scores room)) ->
  guess_in room m g = (resp, room') ->
  (failed resp = true /\ room' = room) \/
  (exists r pts' sc',
      PyDict.get m (roles rnd) = Some Mantri /\
      PyDict.get g (roles rnd) = Some r /\
      resp = Ok (Role_eqb r Chor) /\
      (if Role_eqb r Chor then pts' = points rnd
       else transfer (roles rnd) m (points rnd) = (None, pts')) /\
      PyDict.keys pts' = PyDict.keys (points rnd) /\
      update_scores pts' (scores room) = (None, sc') /\
      room' = resolved room rnd (Role_eqb r Chor) pts' sc').
Proof.
  intros Hr Hk Hs. unfold guess_in. rewrite Hr.
  destruct (option_Role_eqb (PyDict.get m (roles rnd)) (Some Mantri)) eqn:Hm; simpl.
  2:{ intros [= <- <-]. left. split; reflexivity. }
  apply is_mantri_iff in Hm.
  destruct (PyDict.get g (roles rnd)) as [r|] eqn:Hg.
  2:{ intros [= <- <-]. left. split; reflexivity. }
  assert (Hmin : In m (PyDict.keys (roles rnd))) by (eapply get_some_in; eauto).
  assert (Hfin : forall pts', PyDict.keys pts' = PyDict.keys (points rnd) ->
            exists sc', update_scores pts' (scores room) = (None, sc')).
  { intros pts' Hk'. pose proof (update_scores_completes pts' (scores room)) as Hc.
    destruct (update_scores pts' (scores room)) as [e sc'] eqn:Hu. simpl in Hc.
    rewrite Hc; [eauto|]. rewrite Hk', Hk. exact Hs. }
  destruct (Role_eqb r Chor) eqn:Hc; simpl.
  - destruct (Hfin (points rnd) eq_refl) as [sc' Hu]. rewrite Hu.
    intros [= <- <-]. right. exists r, (points rnd), sc'.
    rewrite Hc. repeat split; auto.
  - destruct (transfer (roles rnd) m (points rnd)) as [[e|] pts1] eqn:Ht.
    + destruct (transfer_raises _ _ _ _ _ Hk Hmin Ht) as [-> ->].
      intros [= <- <-]. left. split; [reflexivity|].
      destruct room as [ps rd sc], rnd. simpl in *. now subst rd.
    + assert (Hk1 : PyDict.keys pts1 = PyDict.keys (points rnd)).
      { pose proof (transfer_keys (roles rnd) m (points rnd)) as Htk.
        rewrite Ht in Htk. simpl in Htk. apply Htk. now rewrite Hk. }
      destruct (Hfin pts1 Hk1) as [sc' Hu]. rewrite Hu.
      intros [= <- <-]. right. exists r, pts1, sc'.
      rewrite Hc. repeat split; auto.
Qed.

(** The same for a room with no round: the call fails and nothing moves. *)
Lemma guess_in_no_round room m g :
  round room = None -> guess_in room m g = (NoActiveRound, room).
Proof. intros Hr. unfold guess_in. now rewrite Hr. Qed.

(** ** Facts about the deal *)

Lemma keys_set_inv {V : Type} (d : dict V) k0 v k :
  In k (PyDict.keys (PyDict.set k0 v d)) -> k = k0 \/ In k (PyDict.keys d).
Proof.
  induction d as [|[k' v'] rest IH]; simpl.
  - intros [<-|[]]. now left.
  - destruct (String.eqb k0 k'); simpl; intros [H|H]; auto.
    destruct (IH H); auto.
Qed.

Lemma keys_set_self {V : Type} (d : dict V) k v : In k (PyDict.keys (PyDict.set k v d)).
Proof. eapply get_some_in. apply get_set_same. Qed.

(** Two dictionaries with the same keys still have the same keys after the
    same key is assigned in both. *)
Lemma keys_set_both {V W : Type} (d1 : dict V) (d2 : dict W) k v w :
  PyDict.keys d1 = PyDict.keys d2 ->
  PyDict.keys (PyDict.set k v d1) = PyDict.keys (PyDict.set k w d2).
Proof.
  intros Hk. destruct (in_dec string_dec k (PyDict.keys d1)) as [Hin|Hnin].
  - rewrite !keys_set_present; congruence.
  - rewrite !keys_set_absent; congruence.
Qed.

(** Whatever the identifiers, the loop of [assign_roles] gives the role map
    and the points the same keys, all of them identifiers of the zipped players. *)
Lemma assign_loop_keys zipped rm pts :
  PyDict.keys rm = PyDict.keys pts ->
  PyDict.keys (fst (assign_loop zipped rm pts)) =
    PyDict.keys (snd (assign_loop zipped rm pts)) /\
  forall k, In k (PyDict.keys (fst (assign_loop zipped rm pts))) ->
            In k (PyDict.keys rm) \/ In k (ids (map fst zipped)).
Proof.
  revert rm pts. induction zipped as [|[p r] rest IH]; intros rm pts Hk; simpl.
  - auto.
  - destruct (IH (PyDict.set (id p) r rm) (PyDict.set (id p) (DEFAULT_POINTS r) pts))
      as [IH1 IH2]; [now apply keys_set_both|].
    split; [exact IH1|].
    intros k Hin. destruct (IH2 k Hin) as [H|H]; [|auto].
    apply keys_set_inv in H as [->|H]; auto.
Qed.

(** With distinct identifiers not yet dealt, the loop appends one entry per
    player, in roster order. *)
Lemma assign_loop_distinct zipped rm pts :
  NoDup (PyDict.keys rm ++ ids (map fst zipped)) ->
  PyDict.keys pts = PyDict.keys rm ->
  assign_loop zipped rm pts =
    (rm ++ map (fun pr => (id (fst pr), snd pr)) zipped,
     pts ++ map (fun pr => (id (fst pr), DEFAULT_POINTS (snd pr))) zipped).
Proof.
  revert rm pts. induction zipped as [|[p r] rest IH]; intros rm pts Hnd Hk; simpl.
  - now rewrite !app_nil_r.
  - simpl in Hnd.
    assert (Hnotin : ~ In (id p) (PyDict.keys rm)).
    { intros Hin. apply NoDup_remove_2 in Hnd. apply Hnd. apply in_or_app. now left. }
    rewrite (set_absent (id p) r rm Hnotin).
    rewrite (set_absent (id p) (DEFAULT_POINTS r) pts) by now rewrite Hk.
    rewrite IH.
    + now rewrite <- !app_assoc.
    + unfold PyDict.keys in *. rewrite map_app. simpl. rewrite <- app_assoc. exact Hnd.
    + unfold PyDict.keys in *. rewrite !map_app. simpl. now rewrite Hk.
Qed.

Lemma combine_fst {A B : Type} (l : list A) (l' : list B) :
  List.length l = List.length l' -> map fst (combine l l') = l.
Proof.
  revert l'. induction l as [|a l IH]; intros [|b l'] H; simpl in *; try discriminate; auto.
  f_equal. apply IH. now injection H.
Qed.

Lemma combine_snd {A B : Type} (l : list A) (l' : list B) :
  List.length l = List.length l' -> map snd (combine l l') = l'.
Proof.
  revert l'. induction l as [|a l IH]; intros [|b l'] H; simpl in *; try discriminate; auto.
  f_equal. apply IH. now injection H.
Qed.

Lemma in_combine_fst {A B : Type} (l : list A) (l' : list B) x :
  In x (map fst (combine l l')) -> In x l.
Proof.
  rewrite in_map_iff. intros [[a b] [<- Hin]]. simpl. eapply in_combine_l; eauto.
Qed.

(** The round dealt to four distinct players from a permutation of the roles. *)
Lemma assign_roles_distinct shuffled room :
  NoDup (ids (players room)) ->
  List.length (players room) = List.length shuffled ->
  assign_roles shuffled room =
    {| players := players room;
       round := Some {| roles := combine (ids (players room)) shuffled;
                        points := combine (ids (players room))
                                    (map DEFAULT_POINTS shuffled);
                        completed := false; guess := None |};
       scores := scores room |}.
Proof.
  intros Hnd Hlen. unfold assign_roles.
  rewrite assign_loop_distinct.
  - simpl. do 3 f_equal.
    + generalize dependent shuffled. unfold ids.
      induction (players room) as [|p ps IH]; intros [|r s] Hlen; simpl in *;
        try discriminate; auto.
      inversion Hnd; subst. f_equal. apply IH; auto.
    + generalize dependent shuffled. unfold ids.
      induction (players room) as [|p ps IH]; intros [|r s] Hlen; simpl in *;
        try discriminate; auto.
      inversion Hnd; subst. f_equal. apply IH; auto.
  - simpl. now rewrite combine_fst.
  - reflexivity.
Qed.

(** ** Facts about joining *)

(** A join on a full room is refused and the room is returned as it was. *)
Lemma join_full room n p s :
  (MAX_PLAYERS <= List.length (players room))%nat -> join room n p s = (RoomFull, room).
Proof.
  intros H. unfold join. apply Nat.leb_le in H. now rewrite H.
Qed.

Lemma assign_roles_players s room : players (assign_roles s room) = players room.
Proof. unfold assign_roles. now destruct (assign_loop _ _ _). Qed.

Lemma assign_roles_scores s room : scores (assign_roles s room) = scores room.
Proof. unfold assign_roles. now destruct (assign_loop _ _ _). Qed.

Lemma assign_roles_round s room : round (assign_roles s room) <> None.
Proof. unfold assign_roles. now destruct (assign_loop _ _ _). Qed.

Lemma join_seats room n p s :
  (List.length (players room) < MAX_PLAYERS)%nat ->
  let seated := {| players := players room ++ [mkPlayer p n];
                   round := round room;
                   scores := PyDict.set p 0 (scores room) |} in
  join room n p s =
    (Ok p, if (S (List.length (players room)) =? MAX_PLAYERS)%nat
           then assign_roles s seated else seated).
Proof.
  intros H seated. unfold join.
  apply Nat.leb_gt in H. rewrite H. cbn [players].
  rewrite length_app. simpl List.length. rewrite Nat.add_1_r. reflexivity.
Qed.

Lemma join_players room n p s :
  players (snd (join room n p s)) =
    if (MAX_PLAYERS <=? List.length (players room))%nat then players room
    else players room ++ [mkPlayer p n].
Proof.
  destruct (MAX_PLAYERS <=? List.length (players room))%nat eqn:E.
  - apply Nat.leb_le in E. now rewrite join_full.
  - apply Nat.leb_gt in E. rewrite join_seats by assumption.
    simpl. destruct (_ =? _)%nat; [apply assign_roles_players|reflexivity].
Qed.

Lemma guess_in_players room m g : players (snd (guess_in room m g)) = players room.
Proof.
  unfold guess_in. destruct (round room) as [rnd|]; [|reflexivity].
  destruct (negb _); [reflexivity|].
  destruct (PyDict.get g (roles rnd)); [|reflexivity].
  destruct (if negb _ then _ else _) as [[e|] pts1]; [reflexivity|].
  destruct (update_scores _ _) as [[e|] sc2]; reflexivity.
Qed.

Lemma guess_in_round_none room m g :
  round (snd (guess_in room m g)) = None <-> round room = None.
Proof.
  unfold guess_in. destruct (round room) as [rnd|] eqn:Hr; [|simpl; now rewrite Hr].
  destruct (negb _); [simpl; now rewrite Hr|].
  destruct (PyDict.get g (roles rnd)); [|simpl; now rewrite Hr].
  destruct (if negb _ then _ else _) as [[e|] pts1]; [simpl; split; discriminate|].
  destruct (update_scores _ _) as [[e|] sc2]; simpl; split; discriminate.
Qed.

(** ** The invariants of reachable rooms *)

Lemma fill_ok_new n p : fill_ok (new_room n p).
Proof.
  unfold fill_ok, new_room, MAX_PLAYERS. simpl. split; [lia|]. split; [lia|reflexivity].
Qed.

Lemma fill_ok_step room op : fill_ok room -> fill_ok (step room op).
Proof.
  intros [Hle Hiff]. destruct op as [n p s|m g]; simpl.
  - destruct (le_lt_dec MAX_PLAYERS (List.length (players room))) as [Hfull|Hfree].
    + rewrite join_full by assumption. now split.
    + rewrite join_seats by assumption. cbn [snd].
      destruct (S (List.length (players room)) =? MAX_PLAYERS)%nat eqn:E.
      * apply Nat.eqb_eq in E. unfold fill_ok.
        rewrite assign_roles_players. cbn [players]. rewrite length_app. simpl.
        split; [lia|].
        split; [intros H; now apply assign_roles_round in H|lia].
      * apply Nat.eqb_neq in E. unfold fill_ok. simpl. rewrite length_app. simpl.
        split; [lia|]. split; [lia|]. intros _. now apply Hiff.
  - unfold fill_ok. rewrite guess_in_players, guess_in_round_none. now split.
Qed.

Lemma keys_ok_new n p : keys_ok (new_room n p).
Proof.
  unfold keys_ok, new_room. simpl. split; [|exact I].
  intros k [<-|[]]. now left.
Qed.

Lemma keys_ok_step room op : keys_ok room -> keys_ok (step room op).
Proof.
  intros [Hp Hr]. destruct op as [n p s|m g]; simpl.
  - destruct (le_lt_dec MAX_PLAYERS (List.length (players room))) as [Hfull|Hfree].
    + rewrite join_full by assumption. now split.
    + rewrite join_seats by assumption. cbn [snd].
      assert (Hseat : incl (ids (players room ++ [mkPlayer p n]))
                           (PyDict.keys (PyDict.set p 0 (scores room)))).
      { intros k Hk. unfold ids in Hk. rewrite map_app in Hk.
        apply in_app_or in Hk as [Hk|[<-|[]]].
        - apply keys_set_incl. now apply Hp.
        - apply keys_set_self. }
      destruct (_ =? _)%nat.
      * unfold keys_ok, assign_roles. cbn [players round scores].
        pose proof (assign_loop_keys (combine (players room ++ [mkPlayer p n]) s)
                      PyDict.empty PyDict.empty eq_refl) as [Hk1 Hk2].
        destruct (assign_loop _ _ _) as [rm pts]. simpl in *.
        split; [exact Hseat|]. split; [now symmetry|].
        intros k Hk. apply Hseat. destruct (Hk2 k Hk) as [[]|Hin].
        unfold ids in *. rewrite in_map_iff in Hin. destruct Hin as [x [<- Hx]].
        apply in_map. now apply in_combine_fst in Hx.
      * unfold keys_ok. simpl. split; [exact Hseat|].
        destruct (round room) as [rnd|]; [|exact I].
        destruct Hr as [Hr1 Hr2]. split; [exact Hr1|].
        intros k Hk. apply keys_set_incl. now apply Hr2.
  - destruct (round room) as [rnd|] eqn:Hround.
    + destruct Hr as [Hr1 Hr2].
      destruct (guess_in room m g) as [resp room'] eqn:Hg. simpl.
      destruct (guess_in_cases _ _ _ _ _ _ Hround Hr1 Hr2 Hg)
        as [[_ ->]|(r & pts' & sc' & _ & _ & _ & _ & Hk & Hu & ->)].
      * unfold keys_ok. rewrite Hround. auto.
      * pose proof (update_scores_keys pts' (scores room)) as Hks.
        rewrite Hu in Hks. simpl in Hks.
        unfold keys_ok, resolved. simpl. rewrite Hks. repeat split; auto.
        congruence.
    + rewrite guess_in_no_round by assumption. unfold keys_ok. simpl.
      rewrite Hround. now split.
Qed.

Lemma reachable_ok room : reachable room -> keys_ok room /\ fill_ok room.
Proof.
  induction 1 as [n p|room op _ [IHk IHf]].
  - split; [apply keys_ok_new|apply fill_ok_new].
  - split; [now apply keys_ok_step|now apply fill_ok_step].
Qed.

Lemma reachable_run room ops : reachable room -> reachable (run room ops).
Proof.
  revert room. induction ops as [|op ops IH]; intros room H; simpl; [exact H|].
  apply IH. now constructor.
Qed.

(** Every room of a reachable registry is a reachable room. *)
Lemma registry_rooms_reachable rooms :
  reachable_registry rooms ->
  forall rid room, PyDict.get rid rooms = Some room -> reachable room.
Proof.
  induction 1 as [|rooms n rid0 p _ IH|rooms rid0 n p s _ IH|rooms rid0 m g _ IH];
    intros rid room.
  - discriminate.
  - unfold create_room. cbn [snd].
    destruct (string_dec rid rid0) as [->|Hne].
    + rewrite get_set_same. intros [= <-]. apply reach_new.
    + rewrite get_set_other by exact Hne. apply IH.
  - unfold join_room.
    destruct (PyDict.get rid0 rooms) as [room0|] eqn:Hget; [|apply IH].
    pose proof (reach_step room0 (OpJoin n p s) (IH _ _ Hget)) as Hstep. simpl in Hstep.
    destruct (join room0 n p s) as [resp room']. cbn [snd] in *.
    destruct (string_dec rid rid0) as [->|Hne].
    + rewrite get_set_same. now intros [= <-].
    + rewrite get_set_other by exact Hne. apply IH.
  - unfold guess_chor.
    destruct (PyDict.get rid0 rooms) as [room0|] eqn:Hget; [|apply IH].
    pose proof (reach_step room0 (OpGuess m g) (IH _ _ Hget)) as Hstep. simpl in Hstep.
    destruct (guess_in room0 m g) as [resp room']. cbn [snd] in *.
    destruct (string_dec rid rid0) as [->|Hne].
    + rewrite get_set_same. now intros [= <-].
    + rewrite get_set_other by exact Hne. apply IH.
Qed.

Lemma demo_rooms_reachable : reachable_registry demo_rooms.
Proof.
  unfold demo_rooms. cbv zeta. repeat constructor.
Qed.

(** ** The sample session, evaluated *)

Lemma demo_rooms_lookup : PyDict.get "r1" demo_rooms = Some demo_room.
Proof. reflexivity. Qed.

Lemma demo_room_reachable : reachable demo_room.
Proof.
  unfold demo_room. apply (reach_step demo_room3 (OpJoin "Dev" "p4" demo_shuffle)).
  unfold demo_room3. apply reachable_run. apply reach_new.
Qed.

(** ** Read accessors on an unknown room *)

(** C3, as the code has it: on a room id the registry does not know,
    [list_players] and [leaderboard] answer "Room not found" (404);
    [my_role] does not fail and answers with an absent role; [result]
    answers "No round" (400), the error it also gives for a room whose
    round has not been dealt. *)
Theorem unknown_room_accessors (rooms : Registry) (room_id player_id : string) :
  PyDict.get room_id rooms = None ->
  list_players rooms room_id = RoomNotFound /\
  leaderboard rooms room_id = RoomNotFound /\
  my_role rooms room_id player_id = Ok None /\
  result rooms room_id = NoRound.
Proof.
  intros H. unfold list_players, leaderboard, my_role, result. rewrite H. auto.
Qed.

Lemma unknown_room_accessors_witness :
  PyDict.get "zz" demo_rooms = None /\
  list_players demo_rooms "zz" = RoomNotFound /\
  leaderboard demo_rooms "zz" = RoomNotFound /\
  my_role demo_rooms "zz" "p1" = Ok None /\
  result demo_rooms "zz" = NoRound.
Proof.
  split; [reflexivity|].
  apply (unknown_room_accessors demo_rooms "zz" "p1"). reflexivity.
Defined.

(** C3 as stated fails: on the unknown room id ["zz"], [my_role] succeeds
    (it is not a failure at all) and [result] fails with "No round", which
    is not the "Room not found" response. *)
Lemma unknown_room_not_all_RoomNotFound :
  PyDict.get "zz" demo_rooms = None /\
  failed (my_role demo_rooms "zz" "p1") = false /\
  my_role demo_rooms "zz" "p1" <> RoomNotFound /\
  result demo_rooms "zz" = HttpError "No round" 400 /\
  result demo_rooms "zz" <> RoomNotFound.
Proof.
  repeat split; try reflexivity; unfold RoomNotFound; simpl; discriminate.
Qed.

(** ** Failing calls *)

Lemma join_failed room n p s :
  failed (fst (join room n p s)) = true -> snd (join room n p s) = room.
Proof.
  unfold join. destruct (MAX_PLAYERS <=? List.length (players room))%nat; simpl;
    [reflexivity|discriminate].
Qed.

Lemma guess_in_failed room m g :
  keys_ok room ->
  failed (fst (guess_in room m g)) = true -> snd (guess_in room m g) = room.
Proof.
  intros [_ Hk] Hf. destruct (round room) as [rnd|] eqn:Hr.
  - destruct Hk as [Hk1 Hk2].
    destruct (guess_in room m g) as [resp room'] eqn:Hg. simpl in *.
    destruct (guess_in_cases _ _ _ _ _ _ Hr Hk1 Hk2 Hg)
      as [[_ ->]|(r & pts' & sc' & _ & _ & -> & _)]; [reflexivity|discriminate].
  - now rewrite guess_in_no_round.
Qed.

(** C9: a [join_room] or [guess_chor] call that fails, with an error
    response or with an exception, returns the registry exactly as it was:
    roster, round and scores of the room are untouched.  Every check of the
    two handlers comes before their first write. *)
Theorem failed_call_leaves_state (rooms : Registry) (room_id : string) :
  (forall room, PyDict.get room_id rooms = Some room -> reachable room) ->
  (forall playerName player_id shuffled,
      failed (fst (join_room rooms room_id playerName player_id shuffled)) = true ->
      snd (join_room rooms room_id playerName player_id shuffled) = rooms) /\
  (forall mantri_id guessed_id,
      failed (fst (guess_chor rooms room_id mantri_id guessed_id)) = true ->
      snd (guess_chor rooms room_id mantri_id guessed_id) = rooms).
Proof.
  intros Hreach. split.
  - intros n p s. unfold join_room.
    destruct (PyDict.get room_id rooms) as [room|] eqn:Hget; [|reflexivity].
    pose proof (join_failed room n p s) as Hj.
    destruct (join room n p s) as [resp room']. simpl in *.
    intros Hf. rewrite (Hj Hf). now apply set_get_id.
  - intros m g. unfold guess_chor.
    destruct (PyDict.get room_id rooms) as [room|] eqn:Hget; [|reflexivity].
    destruct (reachable_ok room (Hreach room eq_refl)) as [Hk _].
    pose proof (guess_in_failed room m g Hk) as Hg.
    destruct (guess_in room m g) as [resp room']. simpl in *.
    intros Hf. rewrite (Hg Hf). now apply set_get_id.
Qed.

Lemma failed_call_leaves_state_witness :
  (forall room, PyDict.get "r1" demo_rooms = Some room -> reachable room) /\
  (failed (fst (join_room demo_rooms "r1" "Eve" "p5" ROLES)) = true /\
   snd (join_room demo_rooms "r1" "Eve" "p5" ROLES) = demo_rooms) /\
  (failed (fst (guess_chor demo_rooms "r1" "p1" "p2")) = true /\
   snd (guess_chor demo_rooms "r1" "p1" "p2") = demo_rooms) /\
  (failed (fst (guess_chor demo_rooms "r1" "p3" "nobody")) = true /\
   snd (guess_chor demo_rooms "r1" "p3" "nobody") = demo_rooms).
Proof.
  assert (H : forall room, PyDict.get "r1" demo_rooms = Some room -> reachable room).
  { intros room Hroom. rewrite demo_rooms_lookup in Hroom.
    injection Hroom as <-. exact demo_room_reachable. }
  split; [exact H|].
  destruct (failed_call_leaves_state demo_rooms "r1" H) as [Hj Hg].
  split; [|split]; (split; [reflexivity|]).
  - apply (Hj "Eve" "p5" ROLES). reflexivity.
  - apply (Hg "p1" "p2"). reflexivity.
  - apply (Hg "p3" "nobody"). reflexivity.
Defined.

(** ** What a guess leaves alone *)

Lemma guess_in_frame room m g :
  keys_ok room ->
  let room' := snd (guess_in room m g) in
  players room' = players room /\
  option_map roles (round room') = option_map roles (round room) /\
  option_map (fun r => PyDict.keys (points r)) (round room') =
    option_map (fun r => PyDict.keys (points r)) (round room) /\
  PyDict.keys (scores room') = PyDict.keys (scores room).
Proof.
  intros [_ Hk]. destruct (round room) as [rnd|] eqn:Hr.
  - destruct Hk as [Hk1 Hk2].
    destruct (guess_in room m g) as [resp room'] eqn:Hg. simpl.
    destruct (guess_in_cases _ _ _ _ _ _ Hr Hk1 Hk2 Hg)
      as [[_ ->]|(r & pts' & sc' & _ & _ & _ & _ & Hkp & Hu & ->)].
    + rewrite Hr. auto.
    + pose proof (update_scores_keys pts' (scores room)) as Hks.
      rewrite Hu in Hks. simpl in *. rewrite Hkp. auto.
  - rewrite guess_in_no_round by assumption. simpl. rewrite Hr. auto.
Qed.

Lemma keys_set_registry (rooms : Registry) rid room room' :
  PyDict.get rid rooms = Some room ->
  PyDict.keys (PyDict.set rid room' rooms) = PyDict.keys rooms.
Proof. intros H. apply keys_set_present. eapply get_some_in; eauto. Qed.

(** C10: [guess_chor] leaves the roster (ids, names, order), the role
    mapping of the round, the key list of the round's points and the key
    list of the cumulative scores as they were, whether the call succeeds or
    fails; it touches no other room either.  What is left to change is
    the values of the points and the scores and the [completed] and
    [guess] fields. *)
Theorem guess_chor_frame (rooms : Registry) (room_id mantri_id guessed_id : string)
    (room : Room) :
  PyDict.get room_id rooms = Some room ->
  reachable room ->
  let rooms' := snd (guess_chor rooms room_id mantri_id guessed_id) in
  exists room',
    PyDict.get room_id rooms' = Some room' /\
    players room' = players room /\
    option_map roles (round room') = option_map roles (round room) /\
    option_map (fun r => PyDict.keys (points r)) (round room') =
      option_map (fun r => PyDict.keys (points r)) (round room) /\
    PyDict.keys (scores room') = PyDict.keys (scores room) /\
    PyDict.keys rooms' = PyDict.keys rooms /\
    (forall other, other <> room_id -> PyDict.get other rooms' = PyDict.get other rooms).
Proof.
  intros Hget Hreach rooms'. subst rooms'. unfold guess_chor. rewrite Hget.
  destruct (reachable_ok room Hreach) as [Hk _].
  pose proof (guess_in_frame room mantri_id guessed_id Hk) as Hframe.
  destruct (guess_in room mantri_id guessed_id) as [resp room']. simpl in *.
  destruct Hframe as (Hp & Hr & Hpk & Hs).
  exists room'. repeat split; auto.
  - apply get_set_same.
  - eapply keys_set_registry; eauto.
  - intros other Hne. now apply get_set_other.
Qed.

Lemma guess_chor_frame_witness :
  PyDict.get "r1" demo_rooms = Some demo_room /\
  reachable demo_room /\
  exists room',
    PyDict.get "r1" (snd (guess_chor demo_rooms "r1" "p3" "p1")) = Some room' /\
    players room' = players demo_room /\
    option_map roles (round room') = option_map roles (round demo_room) /\
    option_map (fun r => PyDict.keys (points r)) (round room') =
      option_map (fun r => PyDict.keys (points r)) (round demo_room) /\
    PyDict.keys (scores room') = PyDict.keys (scores demo_room) /\
    PyDict.keys (snd (guess_chor demo_rooms "r1" "p3" "p1")) = PyDict.keys demo_rooms /\
    (forall other, other <> "r1" ->
       PyDict.get other (snd (guess_chor demo_rooms "r1" "p3" "p1")) =
       PyDict.get other demo_rooms).
Proof.
  split; [exact demo_rooms_lookup|]. split; [exact demo_room_reachable|].
  exact (guess_chor_frame demo_rooms "r1" "p3" "p1" demo_room
           demo_rooms_lookup demo_room_reachable).
Defined.

(** ** Filling a room *)

Lemma step_keeps_round room op : round room <> None -> round (step room op) <> None.
Proof.
  intros Hr. destruct op as [n p s|m g]; simpl.
  - destruct (le_lt_dec MAX_PLAYERS (List.length (players room))) as [Hfull|Hfree].
    + now rewrite join_full.
    + rewrite join_seats by assumption. cbn [snd].
      destruct (_ =? _)%nat; [apply assign_roles_round|exact Hr].
  - now rewrite guess_in_round_none.
Qed.

(** Rounds installed along a run are the difference between having a round
    at the end and having one at the start. *)
Lemma installs_count_run room ops :
  (installs_count room ops + has_round room = has_round (run room ops))%nat.
Proof.
  revert room. induction ops as [|op ops IH]; intros room; simpl; [reflexivity|].
  rewrite <- IH. unfold installs, has_round.
  pose proof (step_keeps_round room op) as Hkeep.
  destruct (round room) as [rnd|].
  - destruct (round (step room op)); [lia|]. exfalso. now apply Hkeep.
  - destruct (round (step room op)); lia.
Qed.

(** In a full reachable room nothing but the guess can act, and the guess
    keeps the role mapping: the round installed is never replaced. *)
Lemma step_keeps_roles room op rnd :
  reachable room -> round room = Some rnd ->
  exists rnd', round (step room op) = Some rnd' /\ roles rnd' = roles rnd.
Proof.
  intros Hreach Hr. destruct (reachable_ok room Hreach) as [Hk [Hle Hiff]].
  destruct op as [n p s|m g]; simpl.
  - rewrite join_full; [eauto|].
    destruct (le_lt_dec MAX_PLAYERS (List.length (players room))) as [H|H]; [exact H|].
    apply Hiff in H. congruence.
  - destruct (guess_in_frame room m g Hk) as (_ & Hroles & _).
    rewrite Hr in Hroles. simpl in Hroles.
    destruct (round (snd (guess_in room m g))) as [rnd'|]; [|discriminate].
    injection Hroles as Hroles. eauto.
Qed.

(** C6: along every run of calls on a room from its creation: the roster
    never exceeds 4; the room has no round exactly while it has fewer than 4
    players; the join that seats the 4th player deals the round; a join on
    a room of 4 answers "Room full" and changes nothing, in the room or in
    the registry; the number of steps that installed a round is 1 once the
    room is full and 0 before; and no later call replaces the role mapping
    of the round installed. *)
Theorem room_fills_once (playerName player_id : string) (ops : list Op) :
  let room := run (new_room playerName player_id) ops in
  (List.length (players room) <= 4)%nat /\
  (round room = None <-> (List.length (players room) < 4)%nat) /\
  (forall n p s, List.length (players room) = 3%nat ->
     round room = None /\
     join room n p s =
       (Ok p, assign_roles s {| players := players room ++ [mkPlayer p n];
                                round := None;
                                scores := PyDict.set p 0 (scores room) |}) /\
     List.length (players (snd (join room n p s))) = 4%nat /\
     round (snd (join room n p s)) <> None) /\
  (forall n p s, List.length (players room) = 4%nat ->
     join room n p s = (RoomFull, room) /\
     forall rooms room_id, PyDict.get room_id rooms = Some room ->
       join_room rooms room_id n p s = (RoomFull, rooms)) /\
  installs_count (new_room playerName player_id) ops =
    (if (List.length (players room) =? 4)%nat then 1%nat else 0%nat) /\
  (forall rnd op, round room = Some rnd ->
     exists rnd', round (step room op) = Some rnd' /\ roles rnd' = roles rnd).
Proof.
  intros room.
  assert (Hreach : reachable room) by (apply reachable_run, reach_new).
  destruct (reachable_ok room Hreach) as [Hk [Hle Hiff]].
  unfold MAX_PLAYERS in *.
  split; [exact Hle|]. split; [exact Hiff|]. split; [|split; [|split]].
  - intros n p s H3.
    assert (Hnone : round room = None) by (apply Hiff; lia).
    split; [exact Hnone|].
    assert (Hj : join room n p s =
       (Ok p, assign_roles s {| players := players room ++ [mkPlayer p n];
                                round := None;
                                scores := PyDict.set p 0 (scores room) |})).
    { rewrite join_seats by (unfold MAX_PLAYERS; lia).
      rewrite H3, Hnone. reflexivity. }
    split; [exact Hj|]. rewrite Hj. cbn [snd]. split.
    + rewrite assign_roles_players. cbn [players]. rewrite length_app, H3. reflexivity.
    + apply assign_roles_round.
  - intros n p s H4.
    assert (Hj : join room n p s = (RoomFull, room))
      by (apply join_full; unfold MAX_PLAYERS; lia).
    split; [exact Hj|].
    intros rooms rid Hget. unfold join_room. rewrite Hget, Hj.
    f_equal. now apply set_get_id.
  - pose proof (installs_count_run (new_room playerName player_id) ops) as Hc.
    fold room in Hc. unfold has_round in Hc. simpl in Hc.
    destruct (round room) as [rnd|] eqn:Hr.
    + destruct (List.length (players room) =? 4)%nat eqn:E; [lia|].
      apply Nat.eqb_neq in E. assert (Hlt : (List.length (players room) < 4)%nat) by lia.
      apply Hiff in Hlt. discriminate.
    + destruct (List.length (players room) =? 4)%nat eqn:E; [|lia].
      apply Nat.eqb_eq in E. destruct Hiff as [Hlt _]. specialize (Hlt eq_refl). lia.
  - intros rnd op Hr. now apply step_keeps_roles.
Qed.

Lemma room_fills_once_witness :
  List.length (players demo_room3) = 3%nat /\
  round demo_room3 = None /\
  List.length (players demo_room) = 4%nat /\
  round demo_room <> None /\
  join demo_room "Eve" "p5" ROLES = (RoomFull, demo_room) /\
  join_room demo_rooms "r1" "Eve" "p5" ROLES = (RoomFull, demo_rooms) /\
  installs_count (new_room "Asha" "p1")
    [OpJoin "Bala" "p2" ROLES; OpJoin "Chitra" "p3" ROLES;
     OpJoin "Dev" "p4" demo_shuffle; OpJoin "Eve" "p5" ROLES;
     OpGuess "p3" "p1"] = 1%nat.
Proof.
  pose proof (room_fills_once "Asha" "p1"
                [OpJoin "Bala" "p2" ROLES; OpJoin "Chitra" "p3" ROLES])
    as (_ & _ & H3 & _).
  pose proof (room_fills_once "Asha" "p1"
                [OpJoin "Bala" "p2" ROLES; OpJoin "Chitra" "p3" ROLES;
                 OpJoin "Dev" "p4" demo_shuffle])
    as (_ & _ & _ & H4 & _).
  pose proof (room_fills_once "Asha" "p1"
                [OpJoin "Bala" "p2" ROLES; OpJoin "Chitra" "p3" ROLES;
                 OpJoin "Dev" "p4" demo_shuffle; OpJoin "Eve" "p5" ROLES;
                 OpGuess "p3" "p1"])
    as (_ & _ & _ & _ & Hcount & _).
  destruct (H3 "Dev" "p4" demo_shuffle eq_refl) as (Hnone & _ & Hlen & Hround).
  destruct (H4 "Eve" "p5" ROLES eq_refl) as (Hfull & Hreg).
  split; [reflexivity|]. split; [exact Hnone|]. split; [exact Hlen|].
  split; [exact Hround|]. split; [exact Hfull|].
  split; [exact (Hreg demo_rooms "r1" demo_rooms_lookup)|].
  exact Hcount.
Defined.

(** ** The round at the moment it is dealt *)

Lemma NoDup_ROLES : NoDup ROLES.
Proof.
  unfold ROLES. repeat constructor; simpl; intuition discriminate.
Qed.

Lemma In_ROLES (r : Role) : In r ROLES.
Proof. unfold ROLES. destruct r; simpl; auto. Qed.

Lemma keys_combine {V : Type} (ks : list string) (vs : list V) :
  List.length ks = List.length vs -> PyDict.keys (combine ks vs) = ks.
Proof. apply combine_fst. Qed.

Lemma values_combine {V : Type} (ks : list string) (vs : list V) :
  List.length ks = List.length vs -> PyDict.values (combine ks vs) = vs.
Proof. apply combine_snd. Qed.

Lemma combine_map_snd {A B C : Type} (f : B -> C) (l : list A) (l' : list B) :
  combine l (map f l') = map (fun ab => (fst ab, f (snd ab))) (combine l l').
Proof.
  revert l'. induction l as [|a l IH]; intros [|b l']; simpl; auto. now rewrite IH.
Qed.

(** The fourth join, with a fresh identifier and a shuffle of the roles. *)
Lemma join_fourth room n p shuffled :
  List.length (players room) = 3%nat ->
  NoDup (ids (players room) ++ [p]) ->
  Permutation ROLES shuffled ->
  let ps := players room ++ [mkPlayer p n] in
  join room n p shuffled =
    (Ok p,
     {| players := ps;
        round := Some {| roles := combine (ids ps) shuffled;
                         points := combine (ids ps) (map DEFAULT_POINTS shuffled);
                         completed := false; guess := None |};
        scores := PyDict.set p 0 (scores room) |}) /\
  List.length (ids ps) = List.length shuffled.
Proof.
  intros H3 Hnd Hperm ps.
  assert (Hlen : List.length ps = List.length shuffled).
  { apply Permutation_length in Hperm. rewrite <- Hperm. subst ps.
    rewrite length_app, H3. reflexivity. }
  split.
  - rewrite join_seats by (unfold MAX_PLAYERS; lia). rewrite H3. cbn [Nat.eqb MAX_PLAYERS].
    rewrite assign_roles_distinct; [reflexivity| |exact Hlen].
    cbn [players]. unfold ids. rewrite map_app. exact Hnd.
  - unfold ids. now rewrite length_map.
Qed.

Lemma round_wf_fourth room n p shuffled :
  List.length (players room) = 3%nat ->
  NoDup (ids (players room) ++ [p]) ->
  Permutation ROLES shuffled ->
  exists rnd,
    round (snd (join room n p shuffled)) = Some rnd /\
    round_wf (snd (join room n p shuffled)) rnd /\
    initial_points rnd /\
    PyDict.values (roles rnd) = shuffled.
Proof.
  intros H3 Hnd Hperm.
  destruct (join_fourth room n p shuffled H3 Hnd Hperm) as [Hj Hlen].
  rewrite Hj. cbn [snd round]. eexists. split; [reflexivity|].
  assert (Hids : ids (players room ++ [mkPlayer p n]) = ids (players room) ++ [p]).
  { unfold ids. now rewrite map_app. }
  split; [|split].
  - constructor; cbn [roles points players].
    + now apply keys_combine.
    + rewrite keys_combine by exact Hlen. now rewrite Hids.
    + rewrite values_combine by exact Hlen.
      eapply Permutation_NoDup; [exact Hperm|exact NoDup_ROLES].
    + intros r. rewrite values_combine by exact Hlen.
      eapply Permutation_in; [exact Hperm|apply In_ROLES].
    + rewrite !keys_combine; [reflexivity|exact Hlen|now rewrite length_map].
  - unfold initial_points. cbn [roles points]. apply combine_map_snd.
  - cbn [roles]. now apply values_combine.
Qed.

(** ** The round after it is dealt *)

(** Whatever a guess does, succeed, fail or raise, the round keeps its role
    mapping and the key list of its points. *)
Lemma guess_in_round_shape room rnd m g :
  round room = Some rnd ->
  PyDict.keys (points rnd) = PyDict.keys (roles rnd) ->
  exists rnd',
    round (snd (guess_in room m g)) = Some rnd' /\
    roles rnd' = roles rnd /\
    PyDict.keys (points rnd') = PyDict.keys (points rnd).
Proof.
  intros Hr Hk. unfold guess_in. rewrite Hr.
  destruct (option_Role_eqb (PyDict.get m (roles rnd)) (Some Mantri)) eqn:Hm; simpl;
    [|rewrite Hr; eauto].
  apply is_mantri_iff in Hm.
  assert (Hmin : In m (PyDict.keys (points rnd))).
  { rewrite Hk. eapply get_some_in; eauto. }
  destruct (PyDict.get g (roles rnd)) as [r|]; [|simpl; rewrite Hr; eauto].
  pose proof (transfer_keys (roles rnd) m (points rnd) Hmin) as Ht.
  destruct (Role_eqb r Chor); simpl.
  - destruct (update_scores _ _) as [[e|] sc2]; simpl; eauto.
  - destruct (transfer (roles rnd) m (points rnd)) as [[e|] pts1]; simpl in *; [eauto|].
    destruct (update_scores _ _) as [[e|] sc2]; simpl; eauto.
Qed.

Lemma round_wf_permutation room rnd :
  round_wf room rnd -> Permutation ROLES (PyDict.values (roles rnd)).
Proof.
  intros Hwf. apply NoDup_Permutation.
  - exact NoDup_ROLES.
  - exact (wf_injective _ _ Hwf).
  - intros r. split; intros _; [apply (wf_onto _ _ Hwf)|apply In_ROLES].
Qed.

Lemma round_wf_length room rnd :
  round_wf room rnd -> List.length (players room) = 4%nat.
Proof.
  intros Hwf. pose proof (round_wf_permutation _ _ Hwf) as Hperm.
  apply Permutation_length in Hperm. simpl in Hperm.
  pose proof (wf_keys _ _ Hwf) as Hk.
  apply (f_equal (@List.length string)) in Hk.
  unfold PyDict.keys, PyDict.values, ids in *. rewrite !length_map in *. lia.
Qed.

Lemma round_wf_step room rnd op :
  round room = Some rnd -> round_wf room rnd ->
  exists rnd', round (step room op) = Some rnd' /\ round_wf (step room op) rnd'.
Proof.
  intros Hr Hwf. destruct op as [n p s|m g]; simpl.
  - rewrite join_full; [eauto|].
    rewrite (round_wf_length _ _ Hwf). unfold MAX_PLAYERS. lia.
  - destruct (guess_in_round_shape room rnd m g Hr (wf_points _ _ Hwf))
      as (rnd' & Hr' & Hroles & Hpts).
    exists rnd'. split; [exact Hr'|].
    destruct Hwf as [Hk Hd Hi Ho Hp].
    constructor; rewrite ?guess_in_players, ?Hroles, ?Hpts; auto.
Qed.

Lemma round_wf_run room rnd ops :
  round room = Some rnd -> round_wf room rnd ->
  exists rnd', round (run room ops) = Some rnd' /\ round_wf (run room ops) rnd'.
Proof.
  revert room rnd. induction ops as [|op ops IH]; intros room rnd Hr Hwf; simpl; [eauto|].
  destruct (round_wf_step room rnd op Hr Hwf) as (rnd1 & Hr1 & Hwf1).
  exact (IH _ _ Hr1 Hwf1).
Qed.

(** C7: when the fourth of four players with distinct identifiers joins and
    the roles are dealt from a shuffle of the four roles, the role mapping
    has exactly the identifiers of the roster as keys, no two players hold
    the same role, every role is held, and the points have the keys of the
    role mapping; and the round of the room has these properties after any
    run of later [join_room] and [guess_chor] calls. *)
Theorem round_dealt_bijective (room : Room) (n p : string) (shuffled : list Role)
    (ops : list Op) :
  List.length (players room) = 3%nat ->
  NoDup (ids (players room) ++ [p]) ->
  Permutation ROLES shuffled ->
  let dealt := snd (join room n p shuffled) in
  let later := run dealt ops in
  exists rnd rnd',
    round dealt = Some rnd /\
    PyDict.keys (roles rnd) = ids (players dealt) /\
    NoDup (PyDict.keys (roles rnd)) /\
    NoDup (PyDict.values (roles rnd)) /\
    (forall r : Role, In r (PyDict.values (roles rnd))) /\
    PyDict.keys (points rnd) = PyDict.keys (roles rnd) /\
    round later = Some rnd' /\
    PyDict.keys (roles rnd') = ids (players later) /\
    NoDup (PyDict.keys (roles rnd')) /\
    NoDup (PyDict.values (roles rnd')) /\
    (forall r : Role, In r (PyDict.values (roles rnd'))) /\
    PyDict.keys (points rnd') = PyDict.keys (roles rnd').
Proof.
  intros H3 Hnd Hperm dealt later.
  destruct (round_wf_fourth room n p shuffled H3 Hnd Hperm) as (rnd & Hr & Hwf & _).
  destruct (round_wf_run dealt rnd ops Hr Hwf) as (rnd' & Hr' & Hwf').
  exists rnd, rnd'.
  destruct Hwf as [Hk Hd Hi Ho Hp]. destruct Hwf' as [Hk' Hd' Hi' Ho' Hp'].
  repeat (split; [assumption|]). assumption.
Qed.

Lemma demo_shuffle_permutation : Permutation ROLES demo_shuffle.
Proof.
  unfold ROLES, demo_shuffle.
  apply NoDup_Permutation.
  - exact NoDup_ROLES.
  - repeat constructor; simpl; intuition discriminate.
  - intros r. destruct r; simpl; intuition.
Qed.

Lemma demo_ids_distinct : NoDup (ids (players demo_room3) ++ ["p4"]).
Proof.
  simpl. repeat constructor; simpl; intuition discriminate.
Qed.

Lemma round_dealt_bijective_witness :
  List.length (players demo_room3) = 3%nat /\
  NoDup (ids (players demo_room3) ++ ["p4"]) /\
  Permutation ROLES demo_shuffle /\
  exists rnd rnd',
    round demo_room = Some rnd /\
    PyDict.keys (roles rnd) = ids (players demo_room) /\
    NoDup (PyDict.keys (roles rnd)) /\
    NoDup (PyDict.values (roles rnd)) /\
    (forall r : Role, In r (PyDict.values (roles rnd))) /\
    PyDict.keys (points rnd) = PyDict.keys (roles rnd) /\
    round (run demo_room [OpGuess "p3" "p1"; OpJoin "Eve" "p5" ROLES]) = Some rnd' /\
    PyDict.keys (roles rnd') =
      ids (players (run demo_room [OpGuess "p3" "p1"; OpJoin "Eve" "p5" ROLES])) /\
    NoDup (PyDict.keys (roles rnd')) /\
    NoDup (PyDict.values (roles rnd')) /\
    (forall r : Role, In r (PyDict.values (roles rnd'))) /\
    PyDict.keys (points rnd') = PyDict.keys (roles rnd').
Proof.
  split; [reflexivity|]. split; [exact demo_ids_distinct|].
  split; [exact demo_shuffle_permutation|].
  exact (round_dealt_bijective demo_room3 "Dev" "p4" demo_shuffle
           [OpGuess "p3" "p1"; OpJoin "Eve" "p5" ROLES]
           eq_refl demo_ids_distinct demo_shuffle_permutation).
Defined.

(** ** Resolving a guess *)

(** A guess that answers [correct] ran to completion. *)
Lemma guess_in_ok room rnd m g correct room' :
  round room = Some rnd ->
  guess_in room m g = (Ok correct, room') ->
  exists r pts' sc',
    PyDict.get m (roles rnd) = Some Mantri /\
    PyDict.get g (roles rnd) = Some r /\
    correct = Role_eqb r Chor /\
    (if correct then pts' = points rnd
     else transfer (roles rnd) m (points rnd) = (None, pts')) /\
    update_scores pts' (scores room) = (None, sc') /\
    room' = resolved room rnd correct pts' sc'.
Proof.
  intros Hr. unfold guess_in. rewrite Hr.
  destruct (option_Role_eqb (PyDict.get m (roles rnd)) (Some Mantri)) eqn:Hm; simpl;
    [|discriminate].
  apply is_mantri_iff in Hm.
  destruct (PyDict.get g (roles rnd)) as [r|]; [|discriminate].
  destruct (Role_eqb r Chor) eqn:Hc; simpl.
  - destruct (update_scores _ _) as [[e|] sc2] eqn:Hu; [discriminate|].
    intros [= <- <-]. exists r, (points rnd), sc2. rewrite Hc. auto 10.
  - destruct (transfer (roles rnd) m (points rnd)) as [[e|] pts1] eqn:Ht; [discriminate|].
    destruct (update_scores _ _) as [[e|] sc2] eqn:Hu; [discriminate|].
    intros [= <- <-]. exists r, pts1, sc2. rewrite Hc. auto 10.
Qed.

(** A guess whose penalty and accumulation complete answers and resolves. *)
Lemma guess_in_resolves room rnd m g r pts' sc' :
  round room = Some rnd ->
  PyDict.get m (roles rnd) = Some Mantri ->
  PyDict.get g (roles rnd) = Some r ->
  (if Role_eqb r Chor then pts' = points rnd
   else transfer (roles rnd) m (points rnd) = (None, pts')) ->
  update_scores pts' (scores room) = (None, sc') ->
  guess_in room m g =
    (Ok (Role_eqb r Chor), resolved room rnd (Role_eqb r Chor) pts' sc').
Proof.
  intros Hr Hm Hg Ht Hu. unfold guess_in. rewrite Hr, Hm, Hg. simpl.
  destruct (Role_eqb r Chor); simpl.
  - subst pts'. now rewrite Hu.
  - now rewrite Ht, Hu.
Qed.

Lemma sum_permutation (l l' : list Z) :
  Permutation l l' -> fold_right Z.add 0 l = fold_right Z.add 0 l'.
Proof. induction 1; simpl; lia. Qed.

(** C5: the points of the round dealt by the fourth join, to four players
    with distinct identifiers from a shuffle of the four roles, sum to 2300;
    and a guess that is resolved, correct or not, leaves the sum of the
    round's points as it was. *)
Theorem points_sum_conserved :
  (forall (room : Room) (n p : string) (shuffled : list Role),
      List.length (players room) = 3%nat ->
      NoDup (ids (players room) ++ [p]) ->
      Permutation ROLES shuffled ->
      exists rnd, round (snd (join room n p shuffled)) = Some rnd /\
                  total (points rnd) = 2300) /\
  (forall (room : Room) (rnd : Round) (m g : string) (correct : bool) (room' : Room),
      round room = Some rnd ->
      guess_in room m g = (Ok correct, room') ->
      exists rnd', round room' = Some rnd' /\
                   total (points rnd') = total (points rnd)).
Proof.
  split.
  - intros room n p shuffled H3 Hnd Hperm.
    destruct (join_fourth room n p shuffled H3 Hnd Hperm) as [Hj Hlen].
    rewrite Hj. cbn [snd round]. eexists. split; [reflexivity|]. cbn [points].
    unfold total. rewrite values_combine by now rewrite length_map.
    rewrite <- (sum_permutation _ _ (Permutation_map DEFAULT_POINTS Hperm)).
    reflexivity.
  - intros room rnd m g correct room' Hr Hg.
    destruct (guess_in_ok _ _ _ _ _ _ Hr Hg) as (r & pts' & sc' & _ & _ & _ & Ht & _ & ->).
    eexists. split; [reflexivity|]. cbn [points].
    destruct correct; [now subst|]. eapply transfer_total; eauto.
Qed.

Lemma points_sum_conserved_witness :
  (exists rnd, round demo_room = Some rnd /\ total (points rnd) = 2300) /\
  (exists rnd', round (snd (guess_in demo_room "p3" "p1")) = Some rnd' /\
                total (points rnd') = 2300) /\
  (exists rnd', round (snd (guess_in demo_room "p3" "p2")) = Some rnd' /\
                total (points rnd') = 2300).
Proof.
  destruct points_sum_conserved as [Hdeal Hguess].
  destruct (Hdeal demo_room3 "Dev" "p4" demo_shuffle eq_refl
              demo_ids_distinct demo_shuffle_permutation) as (rnd & Hr & Ht).
  split; [exists rnd; split; assumption|].
  split.
  - destruct (Hguess demo_room rnd "p3" "p1" false (snd (guess_in demo_room "p3" "p1"))
                Hr eq_refl) as (rnd' & Hr' & Ht').
    exists rnd'. split; [exact Hr'|]. now rewrite Ht'.
  - destruct (Hguess demo_room rnd "p3" "p2" true (snd (guess_in demo_room "p3" "p2"))
                Hr eq_refl) as (rnd' & Hr' & Ht').
    exists rnd'. split; [exact Hr'|]. now rewrite Ht'.
Defined.

Lemma get_map_values {V W : Type} (f : V -> W) (d : dict V) k :
  PyDict.get k (map (fun kr => (fst kr, f (snd kr))) d) = option_map f (PyDict.get k d).
Proof.
  induction d as [|[k' v] rest IH]; simpl; [reflexivity|].
  destruct (String.eqb k k'); [reflexivity|exact IH].
Qed.

(** In a well-formed round somebody holds Chor, and the comprehension of
    line 125 finds that player first. *)
Lemma round_wf_chor room rnd :
  round_wf room rnd ->
  exists chor_id rest,
    chor_ids (roles rnd) = chor_id :: rest /\
    PyDict.get chor_id (roles rnd) = Some Chor.
Proof.
  intros Hwf.
  pose proof (wf_onto _ _ Hwf Chor) as Hin.
  unfold PyDict.values in Hin. apply in_map_iff in Hin as [[c r] [Hr Hin]].
  simpl in Hr. subst r. apply chor_ids_complete in Hin.
  destruct (chor_ids (roles rnd)) as [|c0 rest] eqn:Hc; [destruct Hin|].
  exists c0, rest. split; [reflexivity|].
  apply get_of_in; [exact (wf_distinct _ _ Hwf)|].
  apply chor_ids_in. rewrite Hc. now left.
Qed.

(** X17: the first guess on a freshly dealt round (each player holding the
    endowment of the role dealt, four players with scores), made by the
    player holding Mantri about a player of the round, is resolved.  When it
    is incorrect the Mantri's round points go from 800 to 0, the Chor's go
    from 0 to 800, and every other player's are unchanged; when it is
    correct the round points are unchanged.  In both cases each of the four
    players' cumulative score grows by that player's round points. *)
Theorem first_guess_points (room : Room) (rnd : Round) (m g : string) :
  round room = Some rnd ->
  round_wf room rnd ->
  initial_points rnd ->
  incl (ids (players room)) (PyDict.keys (scores room)) ->
  PyDict.get m (roles rnd) = Some Mantri ->
  In g (PyDict.keys (roles rnd)) ->
  exists (chor_id : string) (r : Role) (rnd' : Round) (room' : Room),
    PyDict.get chor_id (roles rnd) = Some Chor /\ chor_id <> m /\
    PyDict.get g (roles rnd) = Some r /\
    guess_in room m g = (Ok (Role_eqb r Chor), room') /\
    round room' = Some rnd' /\
    (Role_eqb r Chor = false ->
       PyDict.get m (points rnd) = Some 800 /\
       PyDict.get m (points rnd') = Some 0 /\
       PyDict.get chor_id (points rnd) = Some 0 /\
       PyDict.get chor_id (points rnd') = Some (0 + 800) /\
       forall pid, pid <> m -> pid <> chor_id ->
                   PyDict.get pid (points rnd') = PyDict.get pid (points rnd)) /\
    (Role_eqb r Chor = true -> points rnd' = points rnd) /\
    List.length (players room) = 4%nat /\
    (forall pid, In pid (ids (players room)) ->
       exists s pts, PyDict.get pid (scores room) = Some s /\
                     PyDict.get pid (points rnd') = Some pts /\
                     PyDict.get pid (scores room') = Some (s + pts)).
Proof.
  intros Hr Hwf Hinit Hsc Hm Hg.
  destruct (round_wf_chor room rnd Hwf) as (c & rest & Hcs & Hc).
  destruct (in_get_some _ _ Hg) as [r Hgr].
  assert (Hcm : c <> m) by (intros ->; congruence).
  assert (Hpm : PyDict.get m (points rnd) = Some 800).
  { rewrite Hinit, get_map_values, Hm. reflexivity. }
  assert (Hpc : PyDict.get c (points rnd) = Some 0).
  { rewrite Hinit, get_map_values, Hc. reflexivity. }
  set (pts1 := PyDict.set c (0 + 800) (PyDict.set m 0 (points rnd))).
  assert (Ht : transfer (roles rnd) m (points rnd) = (None, pts1)).
  { unfold transfer. rewrite Hcs, Hpm.
    rewrite (get_set_other m c 0 (points rnd) Hcm), Hpc. reflexivity. }
  set (pts' := if Role_eqb r Chor then points rnd else pts1).
  assert (Hk' : PyDict.keys pts' = PyDict.keys (points rnd)).
  { subst pts'. destruct (Role_eqb r Chor); [reflexivity|].
    pose proof (transfer_keys (roles rnd) m (points rnd)) as Htk.
    rewrite Ht in Htk. apply Htk. eapply get_some_in; eauto. }
  assert (Hkids : PyDict.keys pts' = ids (players room)).
  { rewrite Hk', (wf_points _ _ Hwf). exact (wf_keys _ _ Hwf). }
  pose proof (update_scores_completes pts' (scores room)) as Hcomp.
  destruct (update_scores pts' (scores room)) as [e sc'] eqn:Hu. simpl in Hcomp.
  rewrite Hcomp in Hu by (rewrite Hkids; exact Hsc). clear Hcomp e.
  exists c, r, {| roles := roles rnd; points := pts';
                 completed := true; guess := Some (Role_eqb r Chor) |},
    (resolved room rnd (Role_eqb r Chor) pts' sc').
  split; [exact Hc|]. split; [exact Hcm|]. split; [exact Hgr|].
  split.
  { apply guess_in_resolves; auto. subst pts'. destruct (Role_eqb r Chor); auto. }
  split; [reflexivity|]. cbn [points].
  split; [|split; [|split]].
  - intros Hfalse. subst pts'. rewrite Hfalse. subst pts1.
    split; [exact Hpm|]. split.
    { rewrite get_set_other by (intros ->; now apply Hcm). apply get_set_same. }
    split; [exact Hpc|]. split; [apply get_set_same|].
    intros pid Hpm' Hpc'. now rewrite !get_set_other.
  - intros Htrue. subst pts'. now rewrite Htrue.
  - exact (round_wf_length _ _ Hwf).
  - intros pid Hpid.
    assert (Hnd : NoDup (PyDict.keys pts')).
    { rewrite Hk', (wf_points _ _ Hwf). exact (wf_distinct _ _ Hwf). }
    pose proof (update_scores_get pts' (scores room) sc' pid Hnd Hu) as Hget.
    destruct (in_get_some pid (scores room) (Hsc pid Hpid)) as [s Hs].
    assert (Hin : In pid (PyDict.keys pts')) by now rewrite Hkids.
    destruct (in_get_some pid pts' Hin) as [pt Hpt].
    exists s, pt. rewrite Hpt, Hs in Hget. auto.
Qed.

(** ** The sort of the leaderboard *)

Section Sorting.
Context {A : Type} (key : A -> Z).

Lemma insert_by_perm x l : Permutation (x :: l) (insert_by key x l).
Proof.
  induction l as [|y rest IH]; simpl; [reflexivity|].
  destruct (key x <=? key y); [reflexivity|].
  rewrite perm_swap. now constructor.
Qed.

Lemma sort_by_perm l : Permutation l (sort_by key l).
Proof.
  induction l as [|x rest IH]; simpl; [constructor|].
  rewrite <- insert_by_perm. now constructor.
Qed.

Lemma insert_by_sorted x l :
  StronglySorted (ascending key) l -> StronglySorted (ascending key) (insert_by key x l).
Proof.
  induction l as [|y rest IH]; intros Hs; simpl.
  - repeat constructor.
  - inversion Hs as [|? ? Hrest Hall]; subst.
    destruct (key x <=? key y) eqn:E.
    + apply Z.leb_le in E. constructor; [exact Hs|].
      constructor; [exact E|].
      eapply Forall_impl; [|exact Hall]. unfold ascending. intros a Ha. lia.
    + apply Z.leb_gt in E. constructor; [now apply IH|].
      eapply Permutation_Forall; [apply insert_by_perm|].
      constructor; [unfold ascending; lia|exact Hall].
Qed.

Lemma sort_by_sorted l : StronglySorted (ascending key) (sort_by key l).
Proof.
  induction l as [|x rest IH]; simpl; [constructor|now apply insert_by_sorted].
Qed.

(** Insertion puts the new element in front of the elements of equal key:
    seen through the filter of any one key, it is a cons. *)
Lemma insert_by_keyed s x l :
  filter (keyed key s) (insert_by key x l) = filter (keyed key s) (x :: l).
Proof.
  induction l as [|y rest IH]; simpl; [reflexivity|].
  destruct (key x <=? key y) eqn:E; [reflexivity|].
  apply Z.leb_gt in E. simpl. rewrite IH. simpl. unfold keyed.
  destruct (key x =? s) eqn:Ex; destruct (key y =? s) eqn:Ey; try reflexivity.
  apply Z.eqb_eq in Ex, Ey. lia.
Qed.

Lemma sort_by_keyed s l : filter (keyed key s) (sort_by key l) = filter (keyed key s) l.
Proof.
  induction l as [|x rest IH]; simpl; [reflexivity|].
  rewrite insert_by_keyed. simpl. now rewrite IH.
Qed.

Lemma sorted_snoc (R : A -> A -> Prop) l a :
  StronglySorted R l -> Forall (fun x => R x a) l -> StronglySorted R (l ++ [a]).
Proof.
  induction 1 as [|x l Hs IH Hall]; intros Hfa; simpl.
  - repeat constructor.
  - inversion Hfa; subst. constructor; [now apply IH|].
    apply Forall_app. split; [exact Hall|]. now constructor.
Qed.

Lemma sorted_rev l : StronglySorted (ascending key) l -> StronglySorted (descending key) (rev l).
Proof.
  induction 1 as [|x l Hs IH Hall]; simpl; [constructor|].
  apply sorted_snoc; [exact IH|].
  apply Forall_rev. eapply Forall_impl; [|exact Hall].
  unfold ascending, descending. intros a Ha. lia.
Qed.

Lemma sort_reverse_perm l : Permutation l (sort_reverse key l).
Proof.
  unfold sort_reverse. rewrite <- Permutation_rev, <- sort_by_perm.
  apply Permutation_rev.
Qed.

Lemma sort_reverse_sorted l : StronglySorted (descending key) (sort_reverse key l).
Proof. unfold sort_reverse. apply sorted_rev, sort_by_sorted. Qed.

Lemma sort_reverse_keyed s l :
  filter (keyed key s) (sort_reverse key l) = filter (keyed key s) l.
Proof.
  unfold sort_reverse. rewrite filter_rev, sort_by_keyed, filter_rev.
  apply rev_involutive.
Qed.

End Sorting.

(** Two lists in descending order of key that agree through the filter of
    every key are the same list: a stable sort has one possible result, so
    which stable algorithm [list.sort] runs does not matter. *)
Lemma stable_sorted_unique {A : Type} (key : A -> Z) (l1 l2 : list A) :
  StronglySorted (descending key) l1 ->
  StronglySorted (descending key) l2 ->
  (forall s, filter (keyed key s) l1 = filter (keyed key s) l2) ->
  l1 = l2.
Proof.
  assert (Hself : forall x, keyed key (key x) x = true)
    by (intros x; unfold keyed; apply Z.eqb_refl).
  intros H1. revert l2. induction H1 as [|a l1 Hs1 IH Ha]; intros l2 H2 Hf.
  - destruct l2 as [|b l2]; [reflexivity|].
    specialize (Hf (key b)). simpl in Hf. rewrite Hself in Hf. discriminate.
  - destruct l2 as [|b l2].
    { specialize (Hf (key a)). simpl in Hf. rewrite Hself in Hf. discriminate. }
    inversion H2 as [|? ? Hs2 Hb]; subst.
    rewrite Forall_forall in Ha, Hb. unfold descending in Ha, Hb.
    assert (Hle1 : key b >= key a).
    { assert (Hin : In a (filter (keyed key (key a)) (b :: l2))).
      { rewrite <- Hf. simpl. rewrite Hself. now left. }
      apply filter_In in Hin as [[->|Hin] _]; [lia|]. exact (Hb a Hin). }
    assert (Hle2 : key a >= key b).
    { assert (Hin : In b (filter (keyed key (key b)) (a :: l1))).
      { rewrite Hf. simpl. rewrite Hself. now left. }
      apply filter_In in Hin as [[->|Hin] _]; [lia|]. exact (Ha b Hin). }
    assert (Hab : key a = key b) by lia.
    assert (Hhead : a = b).
    { specialize (Hf (key a)). simpl in Hf. rewrite Hself in Hf.
      rewrite Hab, Hself in Hf. now injection Hf. }
    subst b. f_equal. apply IH; [exact Hs2|].
    intros s. specialize (Hf s). simpl in Hf.
    destruct (keyed key s a); [now injection Hf|exact Hf].
Qed.

(** ** The leaderboard *)

(** The loop of [leaderboard] builds one entry per roster player, in roster
    order, when every player has a score. *)
Lemma board_loop_entries ps sc :
  incl (ids ps) (PyDict.keys sc) ->
  exists entries,
    board_loop ps sc = Some entries /\
    Forall2 (fun p e => board_name e = name p /\
                        PyDict.get (id p) sc = Some (score e)) ps entries.
Proof.
  induction ps as [|p rest IH]; intros Hincl; simpl.
  - exists []. split; [reflexivity|constructor].
  - assert (Hp : In (id p) (PyDict.keys sc)) by (apply Hincl; now left).
    destruct (in_get_some _ _ Hp) as [s Hs]. rewrite Hs.
    destruct IH as (entries & -> & Hall).
    { intros k Hk. apply Hincl. now right. }
    eexists. split; [reflexivity|]. constructor; [|exact Hall]. simpl. auto.
Qed.

(** C8: for a room of the registry in which every roster player has a
    score, whatever the scores, [leaderboard] answers with a board that has
    one entry (name and score) per roster player, is sorted by score in
    descending order, and lists the entries of any one score in roster order. *)
Theorem leaderboard_sorted_stable (rooms : Registry) (room_id : string) (room : Room) :
  PyDict.get room_id rooms = Some room ->
  incl (ids (players room)) (PyDict.keys (scores room)) ->
  exists entries board,
    Forall2 (fun p e => board_name e = name p /\
                        PyDict.get (id p) (scores room) = Some (score e))
            (players room) entries /\
    leaderboard rooms room_id = Ok board /\
    Permutation entries board /\
    StronglySorted (descending score) board /\
    forall s, filter (keyed score s) board = filter (keyed score s) entries.
Proof.
  intros Hget Hincl.
  destruct (board_loop_entries (players room) (scores room) Hincl) as (entries & Hb & Hall).
  exists entries, (sort_reverse score entries).
  split; [exact Hall|]. split.
  { unfold leaderboard. now rewrite Hget, Hb. }
  split; [apply sort_reverse_perm|].
  split; [apply sort_reverse_sorted|].
  intros s. apply sort_reverse_keyed.
Qed.

Lemma tied_room_scored : incl (ids (players tied_room)) (PyDict.keys (scores tied_room)).
Proof. intros k Hk. exact Hk. Qed.

Lemma leaderboard_sorted_stable_witness :
  PyDict.get "r2" tied_rooms = Some tied_room /\
  incl (ids (players tied_room)) (PyDict.keys (scores tied_room)) /\
  exists entries board,
    Forall2 (fun p e => board_name e = name p /\
                        PyDict.get (id p) (scores tied_room) = Some (score e))
            (players tied_room) entries /\
    leaderboard tied_rooms "r2" = Ok board /\
    Permutation entries board /\
    StronglySorted (descending score) board /\
    forall s, filter (keyed score s) board = filter (keyed score s) entries.
Proof.
  split; [reflexivity|]. split; [exact tied_room_scored|].
  exact (leaderboard_sorted_stable tied_rooms "r2" tied_room eq_refl tied_room_scored).
Defined.

(** The board of the tied room: 7 before 5, and within a score the roster order. *)
Example leaderboard_tied :
  leaderboard tied_rooms "r2" =
    Ok [mkBoardEntry "Bala" 7; mkBoardEntry "Dev" 7;
        mkBoardEntry "Asha" 5; mkBoardEntry "Chitra" 5].
Proof. reflexivity. Qed.

(** ** The sample round *)

Lemma demo_room_round : round demo_room = Some demo_round.
Proof. reflexivity. Qed.

Lemma demo_round_wf : round_wf demo_room demo_round.
Proof.
  destruct (round_wf_fourth demo_room3 "Dev" "p4" demo_shuffle eq_refl
              demo_ids_distinct demo_shuffle_permutation) as (rnd & Hr & Hwf & _).
  change (snd (join demo_room3 "Dev" "p4" demo_shuffle)) with demo_room in *.
  rewrite demo_room_round in Hr. injection Hr as <-. exact Hwf.
Qed.

Lemma demo_room_scored : incl (ids (players demo_room)) (PyDict.keys (scores demo_room)).
Proof. intros k Hk. exact Hk. Qed.

Lemma first_guess_points_witness :
  round demo_room = Some demo_round /\
  round_wf demo_room demo_round /\
  initial_points demo_round /\
  incl (ids (players demo_room)) (PyDict.keys (scores demo_room)) /\
  PyDict.get "p3" (roles demo_round) = Some Mantri /\
  In "p1" (PyDict.keys (roles demo_round)) /\
  exists (chor_id : string) (r : Role) (rnd' : Round) (room' : Room),
    PyDict.get chor_id (roles demo_round) = Some Chor /\ chor_id <> "p3" /\
    PyDict.get "p1" (roles demo_round) = Some r /\
    guess_in demo_room "p3" "p1" = (Ok (Role_eqb r Chor), room') /\
    round room' = Some rnd' /\
    (Role_eqb r Chor = false ->
       PyDict.get "p3" (points demo_round) = Some 800 /\
       PyDict.get "p3" (points rnd') = Some 0 /\
       PyDict.get chor_id (points demo_round) = Some 0 /\
       PyDict.get chor_id (points rnd') = Some (0 + 800) /\
       forall pid, pid <> "p3" -> pid <> chor_id ->
                   PyDict.get pid (points rnd') = PyDict.get pid (points demo_round)) /\
    (Role_eqb r Chor = true -> points rnd' = points demo_round) /\
    List.length (players demo_room) = 4%nat /\
    (forall pid, In pid (ids (players demo_room)) ->
       exists s pts, PyDict.get pid (scores demo_room) = Some s /\
                     PyDict.get pid (points rnd') = Some pts /\
                     PyDict.get pid (scores room') = Some (s + pts)).
Proof.
  split; [exact demo_room_round|]. split; [exact demo_round_wf|].
  split; [reflexivity|]. split; [exact demo_room_scored|].
  split; [reflexivity|].
  assert (Hin : In "p1" (PyDict.keys (roles demo_round))) by (simpl; auto).
  split; [exact Hin|].
  exact (first_guess_points demo_room demo_round "p3" "p1" demo_room_round
           demo_round_wf eq_refl demo_room_scored eq_refl Hin).
Defined.

(** The two outcomes of the first guess in the sample room. *)
Example first_guess_incorrect :
  guess_in demo_room "p3" "p1" =
    (Ok false,
     {| players := players demo_room;
        round := Some {| roles := roles demo_round;
                         points := [("p1", 500); ("p2", 800); ("p3", 0); ("p4", 1000)];
                         completed := true; guess := Some false |};
        scores := [("p1", 500); ("p2", 800); ("p3", 0); ("p4", 1000)] |}).
Proof. reflexivity. Qed.

Example first_guess_correct :
  guess_in demo_room "p3" "p2" =
    (Ok true,
     {| players := players demo_room;
        round := Some {| roles := roles demo_round;
                         points := points demo_round;
                         completed := true; guess := Some true |};
        scores := [("p1", 500); ("p2", 0); ("p3", 800); ("p4", 1000)] |}).
Proof. reflexivity. Qed.

(** C4: a first guess that names nobody.  In the sample room, freshly
    dealt, the Mantri p3 guesses ["nobody"], an identifier that is not a
    player of the round: an incorrect guess.  Line 122 subscripts the role
    mapping and raises [KeyError] before anything is written: the Mantri's
    round points stay at 800 instead of going to 0, the Chor's stay at 0
    instead of gaining 800, no cumulative score is credited and the round
    is not marked completed.  A first incorrect guess about a player of the
    round does move the 800 points and credits all four scores. *)
Theorem first_guess_unknown_id_pays_nothing :
  round demo_room = Some demo_round /\
  completed demo_round = false /\
  PyDict.get "p3" (roles demo_round) = Some Mantri /\
  PyDict.get "p2" (roles demo_round) = Some Chor /\
  PyDict.get "nobody" (roles demo_round) = None /\
  guess_in demo_room "p3" "nobody" = (Raised KeyError, demo_room) /\
  PyDict.get "p3" (points demo_round) = Some 800 /\
  PyDict.get "p2" (points demo_round) = Some 0 /\
  scores demo_room = [("p1", 0); ("p2", 0); ("p3", 0); ("p4", 0)] /\
  guess_in demo_room "p3" "p1" =
    (Ok false,
     {| players := players demo_room;
        round := Some {| roles := roles demo_round;
                         points := [("p1", 500); ("p2", 800); ("p3", 0); ("p4", 1000)];
                         completed := true; guess := Some false |};
        scores := [("p1", 500); ("p2", 800); ("p3", 0); ("p4", 1000)] |}).
Proof. repeat split. Qed.

(** ** Guessing twice *)

(** C1: the code never reads [completed].  In the sample room the Mantri
    p3 names the Chor p2; the call answers [correct = true], marks the
    round completed and adds the round points to the scores.  The same call
    made again is answered in the same way, not rejected, and the round
    points are added to the scores a second time. *)
Theorem second_guess_scores_again :
  let after1 := snd (guess_chor demo_rooms "r1" "p3" "p2") in
  let after2 := snd (guess_chor after1 "r1" "p3" "p2") in
  fst (guess_chor demo_rooms "r1" "p3" "p2") = Ok true /\
  PyDict.get "r1" after1 =
    Some {| players := players demo_room;
            round := Some {| roles := roles demo_round; points := points demo_round;
                             completed := true; guess := Some true |};
            scores := [("p1", 500); ("p2", 0); ("p3", 800); ("p4", 1000)] |} /\
  fst (guess_chor after1 "r1" "p3" "p2") = Ok true /\
  failed (fst (guess_chor after1 "r1" "p3" "p2")) = false /\
  PyDict.get "r1" after2 =
    Some {| players := players demo_room;
            round := Some {| roles := roles demo_round; points := points demo_round;
                             completed := true; guess := Some true |};
            scores := [("p1", 1000); ("p2", 0); ("p3", 1600); ("p4", 2000)] |}.
Proof. repeat split. Qed.

(** ** Guessing an unknown player *)

(** [roles[guessed_id]] on an identifier the round does not know. *)
Lemma guess_in_unknown_guessed room rnd m g :
  round room = Some rnd ->
  PyDict.get m (roles rnd) = Some Mantri ->
  PyDict.get g (roles rnd) = None ->
  guess_in room m g = (Raised KeyError, room).
Proof.
  intros Hr Hm Hg. unfold guess_in. now rewrite Hr, Hm, Hg.
Qed.

(** C2: in the sample room the Mantri p3 names ["nobody"], an identifier
    the round does not know: line 122 subscripts the role mapping and the
    call raises [KeyError] (nothing is written); it does not answer
    [correct = false].  Naming the Mantri itself does answer
    [correct = false], with the Mantri's 800 points moved to the Chor. *)
Theorem unknown_guess_raises :
  PyDict.get "p3" (roles demo_round) = Some Mantri /\
  PyDict.get "nobody" (roles demo_round) = None /\
  guess_chor demo_rooms "r1" "p3" "nobody" = (Raised KeyError, demo_rooms) /\
  guess_in demo_room "p3" "p3" =
    (Ok false,
     {| players := players demo_room;
        round := Some {| roles := roles demo_round;
                         points := [("p1", 500); ("p2", 800); ("p3", 0); ("p4", 1000)];
                         completed := true; guess := Some false |};
        scores := [("p1", 500); ("p2", 800); ("p3", 0); ("p4", 1000)] |}).
Proof. repeat split. Qed.

(** * Further properties of the handlers *)

(** ** Creating a room *)

Lemma registry_write_back (rooms : Registry) rid room :
  PyDict.get rid rooms = Some room -> PyDict.set rid room rooms = rooms.
Proof. apply set_get_id. Qed.

(** X1: [create_room] answers with the two identifiers drawn and stores
    under the room id a room holding only the founder: [list_players]
    lists the founder, [my_role] has no role to give, [result] answers
    "No round", the [leaderboard] shows the founder at 0, and a guess is
    refused with "No active round" leaving the registry as it is.  This is
    so whether or not the id was in use, and no other room is touched. *)
Theorem create_room_then_read (rooms : Registry) (n rid p : string) :
  let rooms' := snd (create_room rooms n rid p) in
  fst (create_room rooms n rid p) = Ok (rid, p) /\
  list_players rooms' rid = Ok [mkPlayer p n] /\
  (forall pid, my_role rooms' rid pid = Ok None) /\
  result rooms' rid = NoRound /\
  leaderboard rooms' rid = Ok [mkBoardEntry n 0] /\
  (forall m g, guess_chor rooms' rid m g = (NoActiveRound, rooms')) /\
  (forall other, other <> rid -> PyDict.get other rooms' = PyDict.get other rooms).
Proof.
  intros rooms'.
  assert (Hget : PyDict.get rid rooms' = Some (new_room n p)) by apply get_set_same.
  split; [reflexivity|].
  split; [unfold list_players; now rewrite Hget|].
  split; [intros pid; unfold my_role; now rewrite Hget|].
  split; [unfold result; now rewrite Hget|].
  split.
  { unfold leaderboard. rewrite Hget. cbn [new_room players scores board_loop id name].
    rewrite get_set_same. reflexivity. }
  split.
  - intros m g. unfold guess_chor. rewrite Hget.
    rewrite guess_in_no_round by reflexivity.
    now rewrite registry_write_back.
  - intros other Hne. subst rooms'. unfold create_room. cbn [snd].
    now apply get_set_other.
Qed.

(** ** Joining a room *)

(** X2: [join_room] never adds or removes a room and never touches a room
    other than the one named; on an unknown room id it answers
    "Room not found" and returns the registry as it is. *)
Theorem join_room_frame (rooms : Registry) (rid n p : string) (s : list Role) :
  let rooms' := snd (join_room rooms rid n p s) in
  PyDict.keys rooms' = PyDict.keys rooms /\
  (forall other, other <> rid -> PyDict.get other rooms' = PyDict.get other rooms) /\
  (PyDict.get rid rooms = None -> join_room rooms rid n p s = (RoomNotFound, rooms)).
Proof.
  intros rooms'. subst rooms'. unfold join_room.
  destruct (PyDict.get rid rooms) as [room|] eqn:Hget.
  - destruct (join room n p s) as [resp room']. cbn [snd].
    split; [eapply keys_set_registry; eauto|].
    split; [intros other Hne; now apply get_set_other|discriminate].
  - auto.
Qed.

(** X3: a join on a known room with a free seat answers with the
    identifier drawn; afterwards [list_players] lists the old roster
    followed by the new player, the new player's score is 0 and every other
    score is as before. *)
Theorem join_room_seats (rooms : Registry) (rid : string) (room : Room)
    (n p : string) (s : list Role) :
  PyDict.get rid rooms = Some room ->
  (List.length (players room) < 4)%nat ->
  let rooms' := snd (join_room rooms rid n p s) in
  fst (join_room rooms rid n p s) = Ok p /\
  list_players rooms' rid = Ok (players room ++ [mkPlayer p n]) /\
  exists room',
    PyDict.get rid rooms' = Some room' /\
    PyDict.get p (scores room') = Some 0 /\
    (forall pid, pid <> p ->
       PyDict.get pid (scores room') = PyDict.get pid (scores room)).
Proof.
  intros Hget Hfree rooms'. subst rooms'. unfold join_room. rewrite Hget.
  rewrite join_seats by exact Hfree. cbn [fst snd].
  split; [reflexivity|].
  set (seated := {| players := players room ++ [mkPlayer p n];
                    round := round room;
                    scores := PyDict.set p 0 (scores room) |}).
  set (room' := if (S (List.length (players room)) =? MAX_PLAYERS)%nat
                then assign_roles s seated else seated).
  assert (Hp : players room' = players seated)
    by (subst room'; destruct (_ =? _)%nat; [apply assign_roles_players|reflexivity]).
  assert (Hs : scores room' = scores seated)
    by (subst room'; destruct (_ =? _)%nat; [apply assign_roles_scores|reflexivity]).
  split.
  - unfold list_players. rewrite get_set_same, Hp. reflexivity.
  - exists room'. split; [apply get_set_same|]. rewrite Hs. cbn [seated scores].
    split; [apply get_set_same|]. intros pid Hne. now apply get_set_other.
Qed.

Lemma join_room_seats_witness :
  PyDict.get "r1" (snd (create_room PyDict.empty "Asha" "r1" "p1")) =
    Some (new_room "Asha" "p1") /\
  (List.length (players (new_room "Asha" "p1")) < 4)%nat /\
  fst (join_room (snd (create_room PyDict.empty "Asha" "r1" "p1"))
         "r1" "Bala" "p2" ROLES) = Ok "p2" /\
  list_players
    (snd (join_room (snd (create_room PyDict.empty "Asha" "r1" "p1"))
            "r1" "Bala" "p2" ROLES)) "r1" =
    Ok (players (new_room "Asha" "p1") ++ [mkPlayer "p2" "Bala"]).
Proof.
  assert (Hlt : (List.length (players (new_room "Asha" "p1")) < 4)%nat)
    by (simpl; lia).
  split; [reflexivity|]. split; [exact Hlt|].
  destruct (join_room_seats (snd (create_room PyDict.empty "Asha" "r1" "p1")) "r1"
              (new_room "Asha" "p1") "Bala" "p2" ROLES eq_refl Hlt)
    as (Hresp & Hlist & _).
  split; [exact Hresp|exact Hlist].
Defined.

(** X4: the roster is append-only.  Whatever calls a room receives, the
    roster it had is a prefix of the roster it has afterwards: no player is
    removed, renamed or moved. *)
Theorem roster_append_only (room : Room) (ops : list Op) :
  exists joined, players (run room ops) = players room ++ joined.
Proof.
  revert room. induction ops as [|op ops IH]; intros room; simpl.
  - exists []. now rewrite app_nil_r.
  - destruct (IH (step room op)) as [joined Hj]. rewrite Hj.
    destruct op as [n p s|m g]; simpl.
    + rewrite join_players. destruct (_ <=? _)%nat.
      * now exists joined.
      * exists (mkPlayer p n :: joined). now rewrite <- app_assoc.
    + rewrite guess_in_players. now exists joined.
Qed.

(** ** The ledger of reachable rooms *)

Lemma values_set_Forall {V : Type} (P : V -> Prop) (d : dict V) k v :
  Forall P (PyDict.values d) -> P v -> Forall P (PyDict.values (PyDict.set k v d)).
Proof.
  intros Hd Hv. induction d as [|[k' v'] rest IH]; simpl.
  - now constructor.
  - inversion Hd; subst. destruct (String.eqb k k'); simpl; constructor; auto.
Qed.

Lemma values_get_Forall {V : Type} (P : V -> Prop) (d : dict V) k v :
  Forall P (PyDict.values d) -> PyDict.get k d = Some v -> P v.
Proof.
  intros Hd Hg. apply in_of_get in Hg. rewrite Forall_forall in Hd.
  apply Hd. unfold PyDict.values. now apply (in_map snd) in Hg.
Qed.

(** Assignment keeps the keys of a dictionary distinct. *)
Lemma keys_set_NoDup {V : Type} (d : dict V) k v :
  NoDup (PyDict.keys d) -> NoDup (PyDict.keys (PyDict.set k v d)).
Proof.
  intros Hnd. destruct (in_dec string_dec k (PyDict.keys d)) as [Hin|Hnin].
  - now rewrite keys_set_present.
  - rewrite keys_set_absent by exact Hnin.
    eapply Permutation_NoDup; [apply Permutation_cons_append|].
    now constructor.
Qed.

Lemma DEFAULT_POINTS_nonneg (r : Role) : 0 <= DEFAULT_POINTS r.
Proof. destruct r; simpl; lia. Qed.

Lemma assign_loop_ledger zipped rm pts :
  NoDup (PyDict.keys rm) ->
  Forall (fun p => 0 <= p) (PyDict.values pts) ->
  NoDup (PyDict.keys (fst (assign_loop zipped rm pts))) /\
  Forall (fun p => 0 <= p) (PyDict.values (snd (assign_loop zipped rm pts))).
Proof.
  revert rm pts. induction zipped as [|[pl r] rest IH]; intros rm pts Hnd Hpos; simpl.
  - auto.
  - apply IH.
    + now apply keys_set_NoDup.
    + apply values_set_Forall; [exact Hpos|apply DEFAULT_POINTS_nonneg].
Qed.

Lemma transfer_nonneg rls m pts :
  Forall (fun p => 0 <= p) (PyDict.values pts) ->
  Forall (fun p => 0 <= p) (PyDict.values (snd (transfer rls m pts))).
Proof.
  intros Hpos. unfold transfer.
  destruct (chor_ids rls) as [|c l]; [exact Hpos|].
  destruct (PyDict.get m pts) as [stolen|] eqn:Hm; [|exact Hpos].
  assert (Hs : 0 <= stolen)
    by exact (values_get_Forall (fun p => 0 <= p) pts m stolen Hpos Hm).
  assert (Hpos1 : Forall (fun p => 0 <= p) (PyDict.values (PyDict.set m 0 pts)))
    by (apply values_set_Forall; [exact Hpos|lia]).
  destruct (PyDict.get c (PyDict.set m 0 pts)) as [cv|] eqn:Hc; simpl; [|exact Hpos1].
  assert (Hcv : 0 <= cv)
    by exact (values_get_Forall (fun p => 0 <= p) _ c cv Hpos1 Hc).
  apply values_set_Forall; [exact Hpos1|lia].
Qed.

Lemma update_scores_nonneg items sc :
  Forall (fun p => 0 <= p) (PyDict.values items) ->
  Forall (fun s => 0 <= s) (PyDict.values sc) ->
  Forall (fun s => 0 <= s) (PyDict.values (snd (update_scores items sc))).
Proof.
  revert sc. induction items as [|[pid p] rest IH]; intros sc Hi Hs; simpl; [exact Hs|].
  inversion Hi; subst. simpl in *.
  destruct (PyDict.get pid sc) as [s|] eqn:Hg; [|exact Hs].
  assert (Hpos : 0 <= s) by exact (values_get_Forall (fun s => 0 <= s) sc pid s Hs Hg).
  apply IH; [assumption|]. apply values_set_Forall; [exact Hs|lia].
Qed.

(** A completed accumulation adds the sum of the points to the sum of the scores. *)
Lemma update_scores_total items sc sc' :
  update_scores items sc = (None, sc') -> total sc' = total sc + total items.
Proof.
  revert sc. induction items as [|[pid p] rest IH]; intros sc; simpl.
  - intros [= <-]. change (total []) with 0. lia.
  - destruct (PyDict.get pid sc) as [s|] eqn:Hg; [|discriminate].
    intros Hu. rewrite (IH _ Hu), (total_set _ _ _ _ Hg).
    change (total ((pid, p) :: rest)) with (p + total rest). lia.
Qed.

Lemma zero_nonneg (l : list Z) :
  Forall (fun s => s = 0) l -> Forall (fun s => 0 <= s) l.
Proof. apply Forall_impl. intros s ->. lia. Qed.

Lemma ledger_ok_new n p : ledger_ok (new_room n p).
Proof.
  unfold ledger_ok, new_room. simpl. split.
  - repeat constructor. simpl. tauto.
  - repeat constructor.
Qed.

Lemma ledger_ok_step room op :
  keys_ok room -> fill_ok room -> ledger_ok room -> ledger_ok (step room op).
Proof.
  intros Hk [Hle Hiff] [Hnd Hl]. destruct op as [n p s|m g]; simpl.
  - destruct (le_lt_dec MAX_PLAYERS (List.length (players room))) as [Hfull|Hfree].
    + rewrite join_full by assumption. now split.
    + rewrite join_seats by assumption. cbn [snd].
      assert (Hnone : round room = None) by now apply Hiff.
      rewrite Hnone in *.
      assert (Hz : Forall (fun s => s = 0) (PyDict.values (PyDict.set p 0 (scores room))))
        by now apply values_set_Forall.
      assert (Hnd' : NoDup (PyDict.keys (PyDict.set p 0 (scores room))))
        by now apply keys_set_NoDup.
      destruct (_ =? _)%nat.
      * unfold ledger_ok, assign_roles. cbn [players round scores].
        pose proof (assign_loop_ledger (combine (players room ++ [mkPlayer p n]) s)
                      PyDict.empty PyDict.empty (NoDup_nil _) (Forall_nil _))
          as [Ha Hb].
        destruct (assign_loop _ _ _) as [rm pts]. simpl in *. auto.
      * unfold ledger_ok. simpl. auto.
  - unfold keys_ok in Hk. destruct (round room) as [rnd|] eqn:Hround.
    + destruct Hk as [_ [Hk1 Hk2]]. destruct Hl as (Hndr & Hpos & Hflag).
      destruct (guess_in room m g) as [resp room'] eqn:Hg. simpl.
      destruct (guess_in_cases _ _ _ _ _ _ Hround Hk1 Hk2 Hg)
        as [[_ ->]|(r & pts' & sc' & _ & _ & _ & Ht & _ & Hu & ->)].
      * unfold ledger_ok. rewrite Hround. auto.
      * assert (Hpos' : Forall (fun p => 0 <= p) (PyDict.values pts')).
        { destruct (Role_eqb r Chor); [now subst|].
          pose proof (transfer_nonneg (roles rnd) m (points rnd) Hpos) as Htn.
          now rewrite Ht in Htn. }
        assert (Hsc : Forall (fun s => 0 <= s) (PyDict.values (scores room))).
        { destruct (completed rnd); destruct Hflag as [_ Hs]; [exact Hs|].
          now apply zero_nonneg. }
        pose proof (update_scores_keys pts' (scores room)) as Hks.
        pose proof (update_scores_nonneg pts' (scores room) Hpos' Hsc) as Hsn.
        rewrite Hu in Hks, Hsn. simpl in Hks, Hsn.
        unfold ledger_ok, resolved. simpl. rewrite Hks.
        repeat split; auto. discriminate.
    + rewrite guess_in_no_round by assumption. unfold ledger_ok. simpl.
      rewrite Hround. now split.
Qed.

Lemma reachable_ledger room : reachable room -> ledger_ok room.
Proof.
  induction 1 as [n p|room op Hreach IH].
  - apply ledger_ok_new.
  - destruct (reachable_ok room Hreach) as [Hk Hf]. now apply ledger_ok_step.
Qed.

Lemma reachable_scores_zero (room : Room) :
  reachable room ->
  match round room with
  | None => True
  | Some rnd => completed rnd = false
  end ->
  forall pid s, PyDict.get pid (scores room) = Some s -> s = 0.
Proof.
  intros Hreach Hopen pid s Hget.
  destruct (reachable_ledger room Hreach) as [_ Hl].
  destruct (round room) as [rnd|].
  - destruct Hl as (_ & _ & Hflag). rewrite Hopen in Hflag. destruct Hflag as [_ Hz].
    exact (values_get_Forall (fun s => s = 0) _ pid s Hz Hget).
  - exact (values_get_Forall (fun s => s = 0) _ pid s Hl Hget).
Qed.

(** X5: until a guess is resolved nothing has been paid out.  In every
    reachable room that has no round yet, or whose round is not completed,
    every cumulative score is 0. *)
Theorem scores_zero_until_resolved (room : Room) :
  reachable room ->
  match round room with
  | None => True
  | Some rnd => completed rnd = false
  end ->
  forall pid s, PyDict.get pid (scores room) = Some s -> s = 0.
Proof. exact (reachable_scores_zero room). Qed.

Lemma scores_zero_until_resolved_witness :
  reachable demo_room /\
  match round demo_room with
  | None => True
  | Some rnd => completed rnd = false
  end /\
  forall pid s, PyDict.get pid (scores demo_room) = Some s -> s = 0.
Proof.
  split; [exact demo_room_reachable|]. split; [reflexivity|].
  exact (scores_zero_until_resolved demo_room demo_room_reachable eq_refl).
Defined.

Lemma completed_stays room rnd ops :
  reachable room -> round room = Some rnd -> completed rnd = true ->
  exists rnd', round (run room ops) = Some rnd' /\ completed rnd' = true.
Proof.
  revert room rnd. induction ops as [|op ops IH]; intros room rnd Hreach Hr Hc; simpl.
  - eauto.
  - assert (Hstep : exists rnd1, round (step room op) = Some rnd1 /\ completed rnd1 = true).
    { destruct (reachable_ok room Hreach) as [Hk [Hle Hiff]].
      destruct op as [n p s|m g]; simpl.
      - rewrite join_full; [eauto|].
        destruct (le_lt_dec MAX_PLAYERS (List.length (players room))) as [H|H]; [exact H|].
        apply Hiff in H. congruence.
      - unfold keys_ok in Hk. rewrite Hr in Hk. destruct Hk as [_ [Hk1 Hk2]].
        destruct (guess_in room m g) as [resp room'] eqn:Hg. simpl.
        destruct (guess_in_cases _ _ _ _ _ _ Hr Hk1 Hk2 Hg)
          as [[_ ->]|(r & pts' & sc' & _ & _ & _ & _ & _ & _ & ->)]; [eauto|].
        simpl. eauto. }
    destruct Hstep as (rnd1 & Hr1 & Hc1).
    exact (IH _ _ (reach_step room op Hreach) Hr1 Hc1).
Qed.

(** X6: in every reachable room the round is marked completed exactly
    when it records the outcome of a guess, and a round once completed is
    completed after any further calls. *)
Theorem completed_records_guess (room : Room) (rnd : Round) :
  reachable room ->
  round room = Some rnd ->
  (completed rnd = true <-> guess rnd <> None) /\
  (completed rnd = true ->
   forall ops, exists rnd', round (run room ops) = Some rnd' /\ completed rnd' = true).
Proof.
  intros Hreach Hr. split.
  - destruct (reachable_ledger room Hreach) as [_ Hl]. rewrite Hr in Hl.
    destruct Hl as (_ & _ & Hflag).
    destruct (completed rnd); destruct Hflag as [Hg _].
    + split; auto.
    + split; [discriminate|intros H; congruence].
  - intros Hc ops. now apply completed_stays with (rnd := rnd).
Qed.

Lemma demo_room_missed_reachable : reachable demo_room_missed.
Proof. exact (reach_step demo_room (OpGuess "p3" "p1") demo_room_reachable). Qed.

Lemma completed_records_guess_witness :
  reachable demo_room_missed /\
  round demo_room_missed =
    Some {| roles := roles demo_round;
            points := [("p1", 500); ("p2", 800); ("p3", 0); ("p4", 1000)];
            completed := true; guess := Some false |} /\
  exists rnd',
    round (run demo_room_missed [OpJoin "Eve" "p5" ROLES; OpGuess "p1" "p2"]) = Some rnd' /\
    completed rnd' = true.
Proof.
  split; [exact demo_room_missed_reachable|]. split; [reflexivity|].
  destruct (completed_records_guess demo_room_missed _ demo_room_missed_reachable eq_refl)
    as [_ Hstay].
  exact (Hstay eq_refl [OpJoin "Eve" "p5" ROLES; OpGuess "p1" "p2"]).
Defined.

(** A resolved guess on a reachable room, opened up. *)
Lemma guess_in_resolved_reachable room rnd m g correct room' :
  reachable room ->
  round room = Some rnd ->
  guess_in room m g = (Ok correct, room') ->
  exists pts' sc',
    room' = resolved room rnd correct pts' sc' /\
    update_scores pts' (scores room) = (None, sc') /\
    NoDup (PyDict.keys pts') /\
    Forall (fun p => 0 <= p) (PyDict.values pts').
Proof.
  intros Hreach Hr Hg.
  destruct (reachable_ok room Hreach) as [Hk _]. unfold keys_ok in Hk.
  rewrite Hr in Hk. destruct Hk as [_ [Hk1 Hk2]].
  destruct (guess_in_cases _ _ _ _ _ _ Hr Hk1 Hk2 Hg)
    as [[Hf _]|(r & pts' & sc' & _ & _ & Hresp & _ & Hkp & Hu & ->)]; [discriminate|].
  injection Hresp as ->.
  exists pts', sc'. split; [reflexivity|]. split; [exact Hu|].
  destruct (reachable_ledger room Hreach) as [_ Hl]. rewrite Hr in Hl.
  destruct Hl as (Hnd & _).
  split; [now rewrite Hkp, Hk1|].
  pose proof (reachable_ledger _ (reach_step room (OpGuess m g) Hreach)) as [_ Hl'].
  simpl in Hl'. rewrite Hg in Hl'. simpl in Hl'. tauto.
Qed.

(** X7: a resolved guess on a reachable room, first or not, marks the
    round completed, records the outcome, and adds to each cumulative score
    the round points that player holds after the guess; a score whose id has
    no round points is left as it was. *)
Theorem guess_adds_points (room : Room) (rnd : Round) (m g : string)
    (correct : bool) (room' : Room) :
  reachable room ->
  round room = Some rnd ->
  guess_in room m g = (Ok correct, room') ->
  exists rnd',
    round room' = Some rnd' /\
    completed rnd' = true /\
    guess rnd' = Some correct /\
    forall pid,
      PyDict.get pid (scores room') =
        match PyDict.get pid (points rnd') with
        | Some pt => option_map (fun s => s + pt) (PyDict.get pid (scores room))
        | None => PyDict.get pid (scores room)
        end.
Proof.
  intros Hreach Hr Hg.
  destruct (guess_in_resolved_reachable _ _ _ _ _ _ Hreach Hr Hg)
    as (pts' & sc' & -> & Hu & Hnd & _).
  eexists. split; [reflexivity|]. cbn [completed guess points scores resolved].
  split; [reflexivity|]. split; [reflexivity|].
  intros pid. now apply update_scores_get.
Qed.

Lemma guess_adds_points_witness :
  reachable demo_room_missed /\
  exists rnd',
    round (snd (guess_in demo_room_missed "p3" "p4")) = Some rnd' /\
    completed rnd' = true /\
    guess rnd' = Some false /\
    forall pid,
      PyDict.get pid (scores (snd (guess_in demo_room_missed "p3" "p4"))) =
        match PyDict.get pid (points rnd') with
        | Some pt => option_map (fun s => s + pt) (PyDict.get pid (scores demo_room_missed))
        | None => PyDict.get pid (scores demo_room_missed)
        end.
Proof.
  split; [exact demo_room_missed_reachable|].
  exact (guess_adds_points demo_room_missed _ "p3" "p4" false _
           demo_room_missed_reachable eq_refl eq_refl).
Defined.

Lemma score_step_grows room op pid s :
  reachable room ->
  PyDict.get pid (scores room) = Some s ->
  exists s', PyDict.get pid (scores (step room op)) = Some s' /\ s <= s'.
Proof.
  intros Hreach Hget. destruct (reachable_ok room Hreach) as [Hk [Hle Hiff]].
  destruct op as [n p sh|m g]; simpl.
  - destruct (le_lt_dec MAX_PLAYERS (List.length (players room))) as [Hfull|Hfree].
    + rewrite join_full by assumption. exists s. split; [exact Hget|lia].
    + assert (Hzero : s = 0).
      { apply (reachable_scores_zero room Hreach) with (pid := pid); [|exact Hget].
        apply Hiff in Hfree. now rewrite Hfree. }
      rewrite join_seats by assumption. cbn [snd].
      assert (Hs : exists s', PyDict.get pid (PyDict.set p 0 (scores room)) = Some s' /\ s <= s').
      { destruct (string_dec pid p) as [->|Hne].
        - exists 0. rewrite get_set_same. split; [reflexivity|lia].
        - exists s. rewrite get_set_other by exact Hne. split; [exact Hget|lia]. }
      destruct (_ =? _)%nat; [rewrite assign_roles_scores|]; exact Hs.
  - destruct (round room) as [rnd|] eqn:Hr.
    + destruct (guess_in room m g) as [[correct|msg code|e] room'] eqn:Hg; simpl.
      * destruct (guess_in_resolved_reachable _ _ _ _ _ _ Hreach Hr Hg)
          as (pts' & sc' & -> & Hu & Hnd & Hpos).
        cbn [resolved scores].
        rewrite (update_scores_get pts' (scores room) sc' pid Hnd Hu), Hget.
        destruct (PyDict.get pid pts') as [pt|] eqn:Hpt; simpl.
        -- exists (s + pt). split; [reflexivity|].
           pose proof (values_get_Forall (fun p => 0 <= p) _ pid pt Hpos Hpt). simpl in *. lia.
        -- exists s. split; [reflexivity|lia].
      * pose proof (guess_in_failed room m g Hk) as Hsame. rewrite Hg in Hsame.
        simpl in Hsame. rewrite Hsame by reflexivity. exists s. split; [exact Hget|lia].
      * pose proof (guess_in_failed room m g Hk) as Hsame. rewrite Hg in Hsame.
        simpl in Hsame. rewrite Hsame by reflexivity. exists s. split; [exact Hget|lia].
    + rewrite guess_in_no_round by assumption. exists s. split; [exact Hget|lia].
Qed.

(** X8: cumulative scores never go down and never disappear.  Along any run
    of calls on a reachable room, a player who has a score keeps one, and
    it is at least what it was. *)
Theorem scores_never_decrease (room : Room) (ops : list Op) (pid : string) (s : Z) :
  reachable room ->
  PyDict.get pid (scores room) = Some s ->
  exists s', PyDict.get pid (scores (run room ops)) = Some s' /\ s <= s'.
Proof.
  revert room s. induction ops as [|op ops IH]; intros room s Hreach Hget; simpl.
  - exists s. split; [exact Hget|lia].
  - destruct (score_step_grows room op pid s Hreach Hget) as (s1 & Hs1 & Hle1).
    destruct (IH _ s1 (reach_step room op Hreach) Hs1) as (s2 & Hs2 & Hle2).
    exists s2. split; [exact Hs2|lia].
Qed.

Lemma scores_never_decrease_witness :
  reachable demo_room /\
  PyDict.get "p2" (scores demo_room) = Some 0 /\
  exists s',
    PyDict.get "p2" (scores (run demo_room [OpGuess "p3" "p1"; OpGuess "p3" "p4"])) =
      Some s' /\ 0 <= s'.
Proof.
  split; [exact demo_room_reachable|]. split; [reflexivity|].
  exact (scores_never_decrease demo_room [OpGuess "p3" "p1"; OpGuess "p3" "p4"] "p2" 0
           demo_room_reachable eq_refl).
Defined.

(** X9: every resolved guess pays out the whole pot.  Whatever the room,
    the sum of the cumulative scores after a resolved guess is the sum
    before plus the sum of the round points. *)
Theorem guess_pays_total (room : Room) (rnd : Round) (m g : string)
    (correct : bool) (room' : Room) :
  round room = Some rnd ->
  guess_in room m g = (Ok correct, room') ->
  total (scores room') = total (scores room) + total (points rnd).
Proof.
  intros Hr Hg.
  destruct (guess_in_ok _ _ _ _ _ _ Hr Hg) as (r & pts' & sc' & _ & _ & _ & Ht & Hu & ->).
  cbn [resolved scores]. rewrite (update_scores_total _ _ _ Hu). f_equal.
  destruct correct; [now subst|]. eapply transfer_total; eauto.
Qed.

Lemma guess_pays_total_witness :
  round demo_room = Some demo_round /\
  guess_in demo_room "p3" "p1" = (Ok false, demo_room_missed) /\
  total (scores demo_room_missed) = total (scores demo_room) + total (points demo_round) /\
  total (points demo_round) = 2300.
Proof.
  split; [reflexivity|]. split; [reflexivity|].
  split; [|reflexivity].
  exact (guess_pays_total demo_room demo_round "p3" "p1" false demo_room_missed
           eq_refl eq_refl).
Defined.

(** ** Asking for a role *)

(** In a dictionary zipped from distinct keys, the key at a position finds
    the value at that position, if there is one. *)
Lemma get_combine_nth {V : Type} (ks : list string) (vs : list V) i k :
  NoDup ks -> nth_error ks i = Some k ->
  PyDict.get k (combine ks vs) = nth_error vs i.
Proof.
  revert i vs. induction ks as [|k0 ks IH]; intros i vs Hnd Hnth.
  - destruct i; discriminate.
  - inversion Hnd as [|? ? Hnotin Hnd']; subst. destruct i as [|i]; simpl in Hnth.
    + injection Hnth as ->. destruct vs as [|v vs]; simpl; [reflexivity|].
      now rewrite String.eqb_refl.
    + assert (Hne : k <> k0).
      { intros ->. apply Hnotin. eapply nth_error_In; eauto. }
      destruct vs as [|v vs]; simpl; [reflexivity|].
      apply String.eqb_neq in Hne. rewrite Hne. now apply IH.
Qed.

Lemma get_combine_absent {V : Type} (ks : list string) (vs : list V) k :
  ~ In k ks -> PyDict.get k (combine ks vs) = None.
Proof.
  intros Hnin. destruct (PyDict.get k (combine ks vs)) as [v|] eqn:Hg; [|reflexivity].
  exfalso. apply Hnin. apply get_some_in in Hg.
  unfold PyDict.keys in Hg. now apply in_combine_fst in Hg.
Qed.

(** X10: the seat decides the role.  When the fourth of four players with
    distinct identifiers joins a room of the registry, [my_role] afterwards
    answers, for the player in seat [i] of the roster, the role in position
    [i] of the shuffled list, and an absent role for any identifier that is
    not a player of the room. *)
Theorem my_role_by_seat (rooms : Registry) (rid : string) (room : Room)
    (n p : string) (shuffled : list Role) :
  PyDict.get rid rooms = Some room ->
  List.length (players room) = 3%nat ->
  NoDup (ids (players room) ++ [p]) ->
  Permutation ROLES shuffled ->
  let rooms' := snd (join_room rooms rid n p shuffled) in
  (forall i pl, nth_error (players room ++ [mkPlayer p n]) i = Some pl ->
                my_role rooms' rid (id pl) = Ok (nth_error shuffled i)) /\
  (forall pid, ~ In pid (ids (players room) ++ [p]) ->
               my_role rooms' rid pid = Ok None).
Proof.
  intros Hget H3 Hnd Hperm rooms'. subst rooms'.
  destruct (join_fourth room n p shuffled H3 Hnd Hperm) as [Hj _].
  unfold join_room. rewrite Hget, Hj. cbn [snd].
  assert (Hids : ids (players room ++ [mkPlayer p n]) = ids (players room) ++ [p])
    by (unfold ids; now rewrite map_app).
  split.
  - intros i pl Hnth. unfold my_role. rewrite get_set_same. cbn [round roles].
    f_equal. apply get_combine_nth; [now rewrite Hids|].
    unfold ids. now apply map_nth_error.
  - intros pid Hnin. unfold my_role. rewrite get_set_same. cbn [round roles].
    f_equal. apply get_combine_absent. now rewrite Hids.
Qed.

Lemma demo_rooms3_lookup :
  PyDict.get "r1"
    (snd (join_room
            (snd (join_room (snd (create_room PyDict.empty "Asha" "r1" "p1"))
                    "r1" "Bala" "p2" ROLES))
            "r1" "Chitra" "p3" ROLES)) = Some demo_room3.
Proof. reflexivity. Qed.

Lemma my_role_by_seat_witness :
  List.length (players demo_room3) = 3%nat /\
  NoDup (ids (players demo_room3) ++ ["p4"]) /\
  Permutation ROLES demo_shuffle /\
  my_role demo_rooms "r1" "p3" = Ok (nth_error demo_shuffle 2) /\
  my_role demo_rooms "r1" "p9" = Ok None.
Proof.
  split; [reflexivity|]. split; [exact demo_ids_distinct|].
  split; [exact demo_shuffle_permutation|].
  destruct (my_role_by_seat _ "r1" demo_room3 "Dev" "p4" demo_shuffle
              demo_rooms3_lookup eq_refl demo_ids_distinct demo_shuffle_permutation)
    as [Hseat Habsent].
  split.
  - exact (Hseat 2%nat (mkPlayer "p3" "Chitra") eq_refl).
  - apply Habsent. simpl. intuition discriminate.
Defined.

(** ** Who holds which role *)

Lemma values_injective {V : Type} (d : dict V) k1 k2 v :
  NoDup (PyDict.values d) -> In (k1, v) d -> In (k2, v) d -> k1 = k2.
Proof.
  induction d as [|[k0 v0] rest IH]; simpl; [tauto|].
  intros Hnd H1 H2. inversion Hnd as [|? ? Hnotin Hnd']; subst.
  assert (Hrest : forall k, In (k, v0) rest -> False).
  { intros k Hin. apply Hnotin. now apply (in_map snd) in Hin. }
  destruct H1 as [E1|H1], H2 as [E2|H2].
  - congruence.
  - injection E1 as <- <-. exfalso. eauto.
  - injection E2 as <- <-. exfalso. eauto.
  - now apply IH.
Qed.

Lemma round_wf_holder room rnd (r : Role) :
  round_wf room rnd ->
  exists pid,
    In pid (ids (players room)) /\
    PyDict.get pid (roles rnd) = Some r /\
    forall pid', PyDict.get pid' (roles rnd) = Some r -> pid' = pid.
Proof.
  intros Hwf. pose proof (wf_onto _ _ Hwf r) as Hin.
  unfold PyDict.values in Hin. apply in_map_iff in Hin as [[pid r'] [Hr Hin]].
  simpl in Hr. subst r'. exists pid. split; [|split].
  - rewrite <- (wf_keys _ _ Hwf). eapply in_keys_pair; eauto.
  - apply get_of_in; [exact (wf_distinct _ _ Hwf)|exact Hin].
  - intros pid' Hg. apply in_of_get in Hg.
    exact (values_injective _ _ _ _ (wf_injective _ _ Hwf) Hg Hin).
Qed.

(** X11: every role is dealt to exactly one player.  When the fourth of
    four players with distinct identifiers joins a room of the registry and
    the roles are dealt from a shuffle of the four roles, then for every
    role there is exactly one identifier for which [my_role] answers that
    role, and it is the identifier of a player of the room. *)
Theorem one_holder_per_role (rooms : Registry) (rid : string) (room : Room)
    (n p : string) (shuffled : list Role) (r : Role) :
  PyDict.get rid rooms = Some room ->
  List.length (players room) = 3%nat ->
  NoDup (ids (players room) ++ [p]) ->
  Permutation ROLES shuffled ->
  let rooms' := snd (join_room rooms rid n p shuffled) in
  exists pid,
    In pid (ids (players room) ++ [p]) /\
    my_role rooms' rid pid = Ok (Some r) /\
    forall pid', my_role rooms' rid pid' = Ok (Some r) -> pid' = pid.
Proof.
  intros Hget H3 Hnd Hperm rooms'. subst rooms'.
  destruct (join_fourth room n p shuffled H3 Hnd Hperm) as [Hj _].
  destruct (round_wf_fourth room n p shuffled H3 Hnd Hperm) as (rnd & Hr & Hwf & _).
  unfold join_room. rewrite Hget.
  destruct (join room n p shuffled) as [resp room'] eqn:Hjoin. cbn [snd] in *.
  assert (Hrole : forall pid,
            my_role (PyDict.set rid room' rooms) rid pid = Ok (PyDict.get pid (roles rnd))).
  { intros pid. unfold my_role. now rewrite get_set_same, Hr. }
  destruct (round_wf_holder room' rnd r Hwf) as (pid & Hin & Hg & Hu).
  exists pid. split; [|split].
  - injection Hj as _ ->. cbn [players] in Hin. unfold ids in *.
    now rewrite map_app in Hin.
  - now rewrite Hrole, Hg.
  - intros pid' Hrole'. rewrite Hrole in Hrole'. injection Hrole' as Hg'. now apply Hu.
Qed.

Lemma one_holder_per_role_witness :
  List.length (players demo_room3) = 3%nat /\
  NoDup (ids (players demo_room3) ++ ["p4"]) /\
  Permutation ROLES demo_shuffle /\
  exists pid,
    In pid (ids (players demo_room3) ++ ["p4"]) /\
    my_role demo_rooms "r1" pid = Ok (Some Raja) /\
    forall pid', my_role demo_rooms "r1" pid' = Ok (Some Raja) -> pid' = pid.
Proof.
  split; [reflexivity|]. split; [exact demo_ids_distinct|].
  split; [exact demo_shuffle_permutation|].
  exact (one_holder_per_role _ "r1" demo_room3 "Dev" "p4" demo_shuffle Raja
           demo_rooms3_lookup eq_refl demo_ids_distinct demo_shuffle_permutation).
Defined.

(** X12: only one player may guess, and only one answer is right.  In a
    room whose round is dealt as a bijection there is one Mantri and one
    Chor: a guess by any other caller, known or not, is refused with
    "Only Mantri can guess" and changes nothing; a guess by the Mantri that
    is resolved is correct exactly when it names the Chor. *)
Theorem only_mantri_guesses (room : Room) (rnd : Round) :
  round room = Some rnd ->
  round_wf room rnd ->
  exists mantri_id chor_id,
    PyDict.get mantri_id (roles rnd) = Some Mantri /\
    PyDict.get chor_id (roles rnd) = Some Chor /\
    (forall caller g, caller <> mantri_id ->
       guess_in room caller g = (NotMantri, room)) /\
    (forall g correct room',
       guess_in room mantri_id g = (Ok correct, room') ->
       (correct = true <-> g = chor_id)).
Proof.
  intros Hr Hwf.
  destruct (round_wf_holder room rnd Mantri Hwf) as (mantri_id & _ & Hm & Hmu).
  destruct (round_wf_holder room rnd Chor Hwf) as (chor_id & _ & Hc & Hcu).
  exists mantri_id, chor_id. split; [exact Hm|]. split; [exact Hc|]. split.
  - intros caller g Hne. unfold guess_in. rewrite Hr.
    destruct (option_Role_eqb (PyDict.get caller (roles rnd)) (Some Mantri)) eqn:E;
      [|reflexivity].
    apply is_mantri_iff in E. exfalso. apply Hne. now apply Hmu.
  - intros g correct room' Hg.
    destruct (guess_in_ok _ _ _ _ _ _ Hr Hg) as (r & _ & _ & _ & Hgr & -> & _).
    rewrite Role_eqb_eq. split.
    + intros ->. now apply Hcu.
    + intros ->. congruence.
Qed.

Lemma only_mantri_guesses_witness :
  round demo_room = Some demo_round /\
  round_wf demo_room demo_round /\
  exists mantri_id chor_id,
    PyDict.get mantri_id (roles demo_round) = Some Mantri /\
    PyDict.get chor_id (roles demo_round) = Some Chor /\
    (forall caller g, caller <> mantri_id ->
       guess_in demo_room caller g = (NotMantri, demo_room)) /\
    (forall g correct room',
       guess_in demo_room mantri_id g = (Ok correct, room') ->
       (correct = true <-> g = chor_id)).
Proof.
  split; [reflexivity|]. split; [exact demo_round_wf|].
  exact (only_mantri_guesses demo_room demo_round eq_refl demo_round_wf).
Defined.

(** ** Reading after a guess *)

(** X13: a guess changes no answer of [list_players] and of [my_role].
    On a reachable registry, whatever the guess and whether it succeeds or
    fails, both accessors answer afterwards as they did before, for every
    room and every player. *)
Theorem readers_unaffected_by_guess (rooms : Registry) (rid m g : string) :
  reachable_registry rooms ->
  let rooms' := snd (guess_chor rooms rid m g) in
  forall rid' pid,
    list_players rooms' rid' = list_players rooms rid' /\
    my_role rooms' rid' pid = my_role rooms rid' pid.
Proof.
  intros Hreach rooms' rid' pid. subst rooms'. unfold guess_chor.
  destruct (PyDict.get rid rooms) as [room|] eqn:Hget; [|now split].
  destruct (reachable_ok room (registry_rooms_reachable rooms Hreach rid room Hget))
    as [Hk _].
  pose proof (guess_in_frame room m g Hk) as Hframe.
  destruct (guess_in room m g) as [resp room']. cbn [snd] in *.
  destruct Hframe as (Hp & Hroles & _).
  unfold list_players, my_role.
  destruct (string_dec rid' rid) as [->|Hne].
  - rewrite get_set_same, Hget, Hp. split; [reflexivity|].
    destruct (round room') as [rnd'|], (round room) as [rnd|]; simpl in Hroles;
      try discriminate; [|reflexivity].
    injection Hroles as ->. reflexivity.
  - rewrite get_set_other by exact Hne. now split.
Qed.

Lemma readers_unaffected_by_guess_witness :
  reachable_registry demo_rooms /\
  list_players (snd (guess_chor demo_rooms "r1" "p3" "p1")) "r1" =
    list_players demo_rooms "r1" /\
  my_role (snd (guess_chor demo_rooms "r1" "p3" "p1")) "r1" "p3" =
    my_role demo_rooms "r1" "p3".
Proof.
  split; [exact demo_rooms_reachable|].
  exact (readers_unaffected_by_guess demo_rooms "r1" "p3" "p1" demo_rooms_reachable
           "r1" "p3").
Defined.

(** ** Results and leaderboard of reachable rooms *)

(** The loops of [result] and of [leaderboard] read the same scores. *)
Lemma result_loop_entries ps rnd sc :
  incl (ids ps) (PyDict.keys sc) ->
  exists entries,
    result_loop ps rnd sc = Some entries /\
    Forall2 (fun pl e => res_name e = name pl /\
                         res_role e = PyDict.get (id pl) (roles rnd) /\
                         PyDict.get (id pl) sc = Some (totalScore e)) ps entries /\
    board_loop ps sc = Some (map board_of_result entries).
Proof.
  induction ps as [|pl rest IH]; intros Hincl; simpl.
  - exists []. repeat split; constructor.
  - assert (Hp : In (id pl) (PyDict.keys sc)) by (apply Hincl; now left).
    destruct (in_get_some _ _ Hp) as [s Hs]. rewrite Hs.
    destruct IH as (entries & -> & Hall & ->).
    { intros k Hk. apply Hincl. now right. }
    eexists. split; [reflexivity|]. split; [|reflexivity].
    constructor; [|exact Hall]. simpl. auto.
Qed.

(** X14: on a reachable registry the two score views never raise and agree.
    For a known room [leaderboard] answers with as many entries as there
    are players; once the round is dealt [result] answers with one entry
    per player in roster order, carrying the player's name, role and
    cumulative score; and the leaderboard is a rearrangement of the names
    and totals of the result. *)
Theorem result_and_leaderboard_agree (rooms : Registry) (rid : string) (room : Room) :
  reachable_registry rooms ->
  PyDict.get rid rooms = Some room ->
  exists board,
    leaderboard rooms rid = Ok board /\
    List.length board = List.length (players room) /\
    forall rnd, round room = Some rnd ->
      exists entries,
        result rooms rid = Ok entries /\
        Forall2 (fun pl e => res_name e = name pl /\
                             res_role e = PyDict.get (id pl) (roles rnd) /\
                             PyDict.get (id pl) (scores room) = Some (totalScore e))
                (players room) entries /\
        Permutation (map board_of_result entries) board.
Proof.
  intros Hreach Hget.
  destruct (reachable_ok room (registry_rooms_reachable rooms Hreach rid room Hget))
    as [[Hincl _] _].
  destruct (board_loop_entries (players room) (scores room) Hincl) as (raw & Hraw & Hall).
  exists (sort_reverse score raw). split; [|split].
  - unfold leaderboard. now rewrite Hget, Hraw.
  - rewrite <- (Permutation_length (sort_reverse_perm score raw)).
    symmetry. eapply Forall2_length; eauto.
  - intros rnd Hr.
    destruct (result_loop_entries (players room) rnd (scores room) Hincl)
      as (entries & Hres & Hent & Hboard).
    exists entries. split; [|split].
    + unfold result. now rewrite Hget, Hr, Hres.
    + exact Hent.
    + rewrite Hraw in Hboard. injection Hboard as ->. apply sort_reverse_perm.
Qed.

Lemma result_and_leaderboard_agree_witness :
  reachable_registry demo_rooms /\
  PyDict.get "r1" demo_rooms = Some demo_room /\
  exists board,
    leaderboard demo_rooms "r1" = Ok board /\
    List.length board = List.length (players demo_room) /\
    forall rnd, round demo_room = Some rnd ->
      exists entries,
        result demo_rooms "r1" = Ok entries /\
        Forall2 (fun pl e => res_name e = name pl /\
                             res_role e = PyDict.get (id pl) (roles rnd) /\
                             PyDict.get (id pl) (scores demo_room) = Some (totalScore e))
                (players demo_room) entries /\
        Permutation (map board_of_result entries) board.
Proof.
  split; [exact demo_rooms_reachable|]. split; [exact demo_rooms_lookup|].
  exact (result_and_leaderboard_agree demo_rooms "r1" demo_room
           demo_rooms_reachable demo_rooms_lookup).
Defined.

(** ** Edge cases of the penalty *)

(** X15: when nobody holds Chor, which a repeated player identifier brings
    about, a guess by the Mantri about any player of the round is taken as
    incorrect and line 125 raises [IndexError] on the empty list; the room
    is left as it was. *)
Theorem guess_without_chor_raises (room : Room) (rnd : Round) (m g : string) :
  round room = Some rnd ->
  chor_ids (roles rnd) = [] ->
  PyDict.get m (roles rnd) = Some Mantri ->
  In g (PyDict.keys (roles rnd)) ->
  guess_in room m g = (Raised IndexError, room).
Proof.
  intros Hr Hnone Hm Hg. destruct (in_get_some _ _ Hg) as [r Hgr].
  assert (Hc : Role_eqb r Chor = false).
  { destruct (Role_eqb r Chor) eqn:E; [|reflexivity].
    apply Role_eqb_eq in E. subst r. apply in_of_get, chor_ids_complete in Hgr.
    rewrite Hnone in Hgr. destruct Hgr. }
  unfold guess_in. rewrite Hr, Hm, Hgr. simpl. rewrite Hc. simpl.
  unfold transfer. rewrite Hnone. f_equal.
  destruct room as [ps rd sc], rnd. simpl in *. now subst rd.
Qed.

Lemma guess_without_chor_raises_witness :
  reachable clash_room /\
  ids (players clash_room) = ["p1"; "p2"; "p3"; "p3"] /\
  round clash_room =
    Some {| roles := [("p1", Raja); ("p2", Mantri); ("p3", Sipahi)];
            points := [("p1", 1000); ("p2", 800); ("p3", 500)];
            completed := false; guess := None |} /\
  guess_in clash_room "p2" "p1" = (Raised IndexError, clash_room).
Proof.
  split; [unfold clash_room; apply reachable_run, reach_new|].
  split; [reflexivity|]. split; [reflexivity|].
  apply (guess_without_chor_raises clash_room
           {| roles := [("p1", Raja); ("p2", Mantri); ("p3", Sipahi)];
              points := [("p1", 1000); ("p2", 800); ("p3", 500)];
              completed := false; guess := None |} "p2" "p1");
    try reflexivity.
  simpl. auto.
Defined.

(** X16: a Mantri with no round points has nothing to lose.  When the
    Mantri's round points are 0, as they are after a first incorrect guess,
    a further incorrect guess that is resolved leaves the round's points
    exactly as they were. *)
Theorem repeated_miss_moves_nothing (room : Room) (rnd : Round) (m g : string)
    (room' : Room) :
  round room = Some rnd ->
  PyDict.get m (points rnd) = Some 0 ->
  guess_in room m g = (Ok false, room') ->
  option_map points (round room') = Some (points rnd).
Proof.
  intros Hr Hzero Hg.
  destruct (guess_in_ok _ _ _ _ _ _ Hr Hg) as (r & pts' & sc' & _ & _ & _ & Ht & _ & ->).
  cbn [resolved round option_map points]. f_equal.
  unfold transfer in Ht.
  destruct (chor_ids (roles rnd)) as [|c l]; [discriminate|].
  rewrite Hzero in Ht. rewrite (set_get_id m 0 (points rnd) Hzero) in Ht.
  destruct (PyDict.get c (points rnd)) as [cv|] eqn:Hc; [|discriminate].
  injection Ht as <-. rewrite Z.add_0_r. now apply set_get_id.
Qed.

Lemma repeated_miss_moves_nothing_witness :
  PyDict.get "p3" [("p1", 500); ("p2", 800); ("p3", 0); ("p4", 1000)] = Some 0 /\
  fst (guess_in demo_room_missed "p3" "p4") = Ok false /\
  option_map points (round (snd (guess_in demo_room_missed "p3" "p4"))) =
    Some [("p1", 500); ("p2", 800); ("p3", 0); ("p4", 1000)].
Proof.
  split; [reflexivity|]. split; [reflexivity|].
  exact (repeated_miss_moves_nothing demo_room_missed
           {| roles := roles demo_round;
              points := [("p1", 500); ("p2", 800); ("p3", 0); ("p4", 1000)];
              completed := true; guess := Some false |}
           "p3" "p4" (snd (guess_in demo_room_missed "p3" "p4"))
           eq_refl eq_refl eq_refl).
Defined.

(** ** The first two handlers on the sample session *)

Lemma create_room_then_read_witness :
  list_players (snd (create_room demo_rooms "Zoya" "r1" "z1")) "r1" =
    Ok [mkPlayer "z1" "Zoya"] /\
  leaderboard (snd (create_room demo_rooms "Zoya" "r9" "z1")) "r9" =
    Ok [mkBoardEntry "Zoya" 0] /\
  PyDict.get "r1" (snd (create_room demo_rooms "Zoya" "r9" "z1")) =
    PyDict.get "r1" demo_rooms.
Proof.
  destruct (create_room_then_read demo_rooms "Zoya" "r1" "z1") as (_ & Hlist & _).
  destruct (create_room_then_read demo_rooms "Zoya" "r9" "z1")
    as (_ & _ & _ & _ & Hboard & _ & Hother).
  split; [exact Hlist|]. split; [exact Hboard|].
  apply Hother. discriminate.
Defined.

Lemma join_room_frame_witness :
  PyDict.get "zz" demo_rooms = None /\
  join_room demo_rooms "zz" "Eve" "p5" ROLES = (RoomNotFound, demo_rooms) /\
  PyDict.keys (snd (join_room demo_rooms "r1" "Eve" "p5" ROLES)) = PyDict.keys demo_rooms.
Proof.
  destruct (join_room_frame demo_rooms "zz" "Eve" "p5" ROLES) as (_ & _ & Hunknown).
  destruct (join_room_frame demo_rooms "r1" "Eve" "p5" ROLES) as (Hkeys & _).
  split; [reflexivity|]. split; [exact (Hunknown eq_refl)|exact Hkeys].
Defined.
